(** * SimpleAgentScaffold: a shallow embedding of the sandboxed execution core

    The development follows the Python sources file by file:
    - [src/sandbox.py]  : [CompletedProcess], [DockerSandbox] and the
      module-level [_container_creation_lock];
    - [src/agent.py]    : [Tool.call], [FinishTool], [BashTool], [Agent.run];
    - [src/evaluate.py] and [main.py] : the fan-out defaults.

    Python [int] is [Z], Python [str] is [string], [bytes] is [list byte],
    [str | None] is [option string].  Library functions whose code is not
    part of the repository ([json.loads], [json.dumps], [bytes.decode],
    [str.splitlines]) and the outside world (the container runtime, the
    model service) are taken as interfaces. *)

From Stdlib Require Import ZArith Lia Ascii String Strings.Byte.
From stdpp Require Import base tactics option list strings pretty relations.

Open Scope Z_scope.

Set Warnings "-register-all".

(** ** Python strings: length and slices *)

Module Py.

Fixpoint chars (s : string) : list ascii :=
  match s with
  | EmptyString => []
  | String c s' => c :: chars s'
  end.

Fixpoint of_chars (l : list ascii) : string :=
  match l with
  | [] => EmptyString
  | c :: l' => String c (of_chars l')
  end.

(** [len(s)] *)
Definition len (s : string) : Z := Z.of_nat (String.length s).

(** A slice bound [k] of a sequence of length [n], as Python normalises it:
    a negative bound counts from the end, and both are clamped to [0..n]. *)
Definition slice_index (n k : Z) : nat :=
  Z.to_nat (if k <? 0 then Z.max 0 (n + k) else Z.min k n).

(** [s[:k]] *)
Definition slice_to (s : string) (k : Z) : string :=
  of_chars (take (slice_index (len s) k) (chars s)).

(** [s[k:]] *)
Definition slice_from (s : string) (k : Z) : string :=
  of_chars (drop (slice_index (len s) k) (chars s)).

End Py.

(** ** Outcomes of Python code

    A call either returns a value or raises.  [LoopFuelExhausted] is not a
    Python exception: it marks the one place where the model bounds a
    [for i in count()] loop, and [count_loop_total] shows it never occurs. *)

Inductive exn :=
| AssertionError
| Exception (msg : string)
| FileNotFoundError (msg : string)
| TypeError
| ValueError
| BeartypeCallHintParamViolation
| LoopFuelExhausted.

Inductive result (A : Type) :=
| Return (a : A)
| Raise (e : exn).
Arguments Return {A} a.
Arguments Raise {A} e.

(** ** State and exceptions threaded through a coroutine *)

Definition M (S A : Type) : Type := S -> result A * S.

Definition ret {S A} (a : A) : M S A := fun w => (Return a, w).
Definition raise {S A} (e : exn) : M S A := fun w => (Raise e, w).
Definition bind {S A B} (m : M S A) (k : A -> M S B) : M S B :=
  fun w => match m w with
           | (Return a, w') => k a w'
           | (Raise e, w') => (Raise e, w')
           end.

Notation "x <- m ;; k" := (bind m (fun x => k))
  (at level 100, m at next level, right associativity) : stdpp_scope.
Notation "m ;;; k" := (bind m (fun _ => k))
  (at level 100, right associativity) : stdpp_scope.

(** ** Data of the three source files *)

Definition bytes := list byte.

(** [json.loads] values; a [dict] keeps its keys in insertion order. *)
Inductive json :=
| JNull
| JBool (b : bool)
| JInt (z : Z)
| JFloat (literal : string)
| JStr (s : string)
| JList (l : list json)
| JDict (d : list (string * json)).

(** src/sandbox.py, [CompletedProcess] *)
Record CompletedProcess := {
  returncode : Z;
  stdout : string;
  stderr : string
}.

(** src/sandbox.py, [DockerSandbox]: its only attribute. *)
Record DockerSandbox := { container_name : string }.

(** An [asyncio.subprocess.Process]: the handle the runtime gave, and the
    command line it was created with. *)
Record Process := { pid : Z; proc_args : list string }.

(** The [tool_calls] entries of a [ChatCompletionMessage]:
    [tool_call.id], [tool_call.function.name], [tool_call.function.arguments]. *)
Record ToolCall := {
  tc_id : string;
  tc_function_name : string;
  tc_function_arguments : string
}.

Record ChatCompletionMessage := {
  content : option string;
  tool_calls : option (list ToolCall)
}.

Inductive Role := Ruser | Rsystem | Rassistant | Rtool.

(** An entry of [conversation]: a dict literal written by [Agent.run], or the
    response object of the model service appended as it is. *)
Inductive message :=
| Dict (role : Role) (text : string) (tool_call_id : option string)
| Response (response : ChatCompletionMessage).

(** [description_for_openai_api()["function"]] *)
Record FunctionDescription := {
  fn_name : string;
  fn_description : string;
  fn_parameters : json
}.

(** ** Interfaces to what lies outside the repository *)

(** Library functions. [json_loads] is [None] where [json.loads] raises
    [json.JSONDecodeError]; [decode] is [bytes.decode("utf-8",
    errors="replace")]. *)
Class PyLib := {
  json_loads : string -> option json;
  json_dumps : json -> string;
  decode : bytes -> string;
  splitlines : string -> list string
}.

(** The outside world: the operating system with the container runtime
    behind the [docker] command, and the model service.  Each operation is
    one [await] of the source (or one synchronous call) and takes the world
    from one state to the next.  [wait_for_communicate] is
    [asyncio.wait_for(proc.communicate(), timeout)]: [None] is
    [asyncio.TimeoutError]. *)
Class Runtime := {
  World : Type;
  create_subprocess_exec : list string -> World -> Z * World;
  communicate : Process -> World -> (bytes * bytes) * World;
  wait_for_communicate : Process -> Z -> World -> option (bytes * bytes) * World;
  proc_returncode : Process -> World -> Z;
  kill : Process -> World -> World;
  wait : Process -> World -> World;
  is_dir : string -> World -> bool;
  chat_completions_create :
    string -> list message -> list FunctionDescription -> World ->
    ChatCompletionMessage * World
}.

(** ** src/sandbox.py *)

Section sandbox.
Context {lib : PyLib} {rt : Runtime}.

(** [await asyncio.create_subprocess_exec] with [stdout=PIPE, stderr=PIPE] *)
Definition spawn (args : list string) : M World Process :=
  fun w => let (h, w') := create_subprocess_exec args w in
           (Return {| pid := h; proc_args := args |}, w').

(** [await proc.communicate()], both streams decoded, then the read of
    [proc.returncode]. *)
Definition communicate_decoded (proc : Process) : M World CompletedProcess :=
  fun w => let '((stdout_bytes, stderr_bytes), w') := communicate proc w in
           (Return {| returncode := proc_returncode proc w';
                      stdout := decode stdout_bytes;
                      stderr := decode stderr_bytes |}, w').

(** A command run to its end: created, then [communicate]d. *)
Definition run_to_completion (args : list string) : M World CompletedProcess :=
  proc <- spawn args ;; communicate_decoded proc.

Definition docker_ps : list string :=
  ["docker"; "ps"; "-a"; "--format"; "{{.Names}}"]%string.

Definition candidate_name (i : nat) : string :=
  "bash-sandbox-instance-" +:+ pretty i.

(** [for i in count(): name = f"bash-sandbox-instance-{i}"; if name not in
    existing_containers: return name], from index [i], at most [fuel]
    iterations. *)
Fixpoint count_loop (existing_containers : list string) (fuel i : nat)
  : option string :=
  match fuel with
  | O => None
  | S fuel' =>
      let name := candidate_name i in
      if bool_decide (name ∈ existing_containers)
      then count_loop existing_containers fuel' (S i)
      else Some name
  end.

Definition make_unique_container_name : M World string :=
  proc <- spawn docker_ps ;;
  p <- communicate_decoded proc ;;
  if bool_decide (returncode p ≠ 0)
  then raise (Exception ("Error getting existing containers: " +:+ stderr p))
  else
    let existing_containers := splitlines (stdout p) in
    match count_loop existing_containers (S (length existing_containers)) 0 with
    | Some name => ret name
    | None => raise LoopFuelExhausted
    end.

Definition sandbox_path : string := "sandbox".

Definition docker_build : list string :=
  ["docker"; "build"; "-t"; "bash-sandbox"; sandbox_path]%string.

Definition build_image : M World unit :=
  fun w =>
    if negb (is_dir sandbox_path w)
    then raise (FileNotFoundError
                  ("Sandbox directory '" +:+ sandbox_path +:+ "' not found.")) w
    else (proc <- spawn docker_build ;;
          p <- communicate_decoded proc ;;
          if bool_decide (returncode p ≠ 0)
          then raise (Exception ("Error building image: " +:+ stderr p))
          else ret tt) w.

Definition docker_run (name : string) : list string :=
  ["docker"; "run"; "-d"; "--name"; name; "--tty"; "bash-sandbox";
   "/bin/sh"; "-c"; "while true; do sleep 1; done"]%string.

Definition start_container (self : DockerSandbox) : M World unit :=
  proc <- spawn (docker_run (container_name self)) ;;
  p <- communicate_decoded proc ;;
  if bool_decide (returncode p ≠ 0)
  then raise (Exception ("Error starting container: " +:+ stderr p))
  else ret tt.

(** [__aenter__] for one task running alone: the lock is free when it is
    asked for and is given back on every way out.  The sandbox object is
    returned with its [container_name] as assigned. *)
Definition __aenter__ (self : DockerSandbox) : M World DockerSandbox :=
  name <- make_unique_container_name ;;
  let self := {| container_name := name |} in
  build_image ;;;
  start_container self ;;;
  ret self.

Definition docker_exec (name command : string) : list string :=
  ["docker"; "exec"; name; "/bin/bash"; "-c"; command]%string.

Definition default_timeout_seconds : Z := 30.

Definition run_command (self : DockerSandbox) (command : string)
    (timeout_seconds : Z) : M World CompletedProcess :=
  proc <- spawn (docker_exec (container_name self) command) ;;
  fun w =>
    match wait_for_communicate proc timeout_seconds w with
    | (None, w') =>
        (Return {| returncode := 1; stdout := ""; stderr := "Timed out." |},
         wait proc (kill proc w'))
    | (Some (stdout_bytes, stderr_bytes), w') =>
        (Return {| returncode := proc_returncode proc w';
                   stdout := decode stdout_bytes;
                   stderr := decode stderr_bytes |}, w')
    end.

Definition docker_stop (name : string) : list string :=
  ["docker"; "stop"; name]%string.
Definition docker_rm (name : string) : list string :=
  ["docker"; "rm"; name]%string.

(** [cleanup] is two commands whose results are ignored; [__aexit__] is
    [cleanup]. *)
Definition cleanup_stop (self : DockerSandbox) : M World unit :=
  proc <- spawn (docker_stop (container_name self)) ;;
  fun w => (Return tt, snd (communicate proc w)).

Definition cleanup_rm (self : DockerSandbox) : M World unit :=
  proc <- spawn (docker_rm (container_name self)) ;;
  fun w => (Return tt, snd (communicate proc w)).

Definition cleanup (self : DockerSandbox) : M World unit :=
  cleanup_stop self ;;; cleanup_rm self.

(** *** Tasks opening sandboxes concurrently

    [asyncio] runs the tasks on one thread and switches between them only at
    an [await].  A task of [evaluate_agent] is at one of the points below;
    a step runs one task from its point to its next one, on the shared world
    and the shared [_container_creation_lock].  The commands a coroutine
    issues between two points take effect together.  Between [__aenter__]
    and [__aexit__] a task of [evaluate_agent] runs shell commands in its
    sandbox and asks the model service, in any number and order. *)

Inductive point :=
| Created      (* [DockerSandbox()] built, [__aenter__] not yet past the lock *)
| Reserving    (* lock held, before [make_unique_container_name] *)
| Building     (* lock held, name assigned, before [build_image] *)
| Starting     (* lock held, before [start_container] *)
| Entered      (* [__aenter__] returned, lock released, container running *)
| Stopping     (* in [cleanup], between [docker stop] and [docker rm] *)
| Exited       (* [cleanup] done *)
| Failed (e : exn). (* [__aenter__] raised, lock released *)

Record task := { at_point : point; sandbox_of : DockerSandbox }.

Record system := {
  locked : bool;          (* [_container_creation_lock.locked()] *)
  shared : World;
  tasks : list task
}.

(** [DockerSandbox.__init__] *)
Definition new_sandbox : DockerSandbox := {| container_name := "" |}.

Definition initial (n : nat) (w : World) : system :=
  {| locked := false; shared := w;
     tasks := replicate n {| at_point := Created; sandbox_of := new_sandbox |} |}.

Definition move (s : system) (i : nat) (l : bool) (w : World) (p : point)
    (sb : DockerSandbox) : system :=
  {| locked := l; shared := w;
     tasks := <[i := {| at_point := p; sandbox_of := sb |}]> (tasks s) |}.

Inductive step : system -> system -> Prop :=
| step_acquire s i t :
    tasks s !! i = Some t -> at_point t = Created -> locked s = false ->
    step s (move s i true (shared s) Reserving (sandbox_of t))
| step_name s i t name w' :
    tasks s !! i = Some t -> at_point t = Reserving ->
    make_unique_container_name (shared s) = (Return name, w') ->
    step s (move s i true w' Building {| container_name := name |})
| step_name_raise s i t e w' :
    tasks s !! i = Some t -> at_point t = Reserving ->
    make_unique_container_name (shared s) = (Raise e, w') ->
    step s (move s i false w' (Failed e) (sandbox_of t))
| step_build s i t w' :
    tasks s !! i = Some t -> at_point t = Building ->
    build_image (shared s) = (Return tt, w') ->
    step s (move s i true w' Starting (sandbox_of t))
| step_build_raise s i t e w' :
    tasks s !! i = Some t -> at_point t = Building ->
    build_image (shared s) = (Raise e, w') ->
    step s (move s i false w' (Failed e) (sandbox_of t))
| step_start s i t w' :
    tasks s !! i = Some t -> at_point t = Starting ->
    start_container (sandbox_of t) (shared s) = (Return tt, w') ->
    step s (move s i false w' Entered (sandbox_of t))
| step_start_raise s i t e w' :
    tasks s !! i = Some t -> at_point t = Starting ->
    start_container (sandbox_of t) (shared s) = (Raise e, w') ->
    step s (move s i false w' (Failed e) (sandbox_of t))
| step_run_command s i t command timeout_seconds r w' :
    tasks s !! i = Some t -> at_point t = Entered ->
    run_command (sandbox_of t) command timeout_seconds (shared s) = (r, w') ->
    step s (move s i (locked s) w' Entered (sandbox_of t))
| step_model_call s i t model conversation descriptions r w' :
    tasks s !! i = Some t -> at_point t = Entered ->
    chat_completions_create model conversation descriptions (shared s) = (r, w') ->
    step s (move s i (locked s) w' Entered (sandbox_of t))
| step_stop s i t r w' :
    tasks s !! i = Some t -> at_point t = Entered ->
    cleanup_stop (sandbox_of t) (shared s) = (r, w') ->
    step s (move s i (locked s) w' Stopping (sandbox_of t))
| step_rm s i t r w' :
    tasks s !! i = Some t -> at_point t = Stopping ->
    cleanup_rm (sandbox_of t) (shared s) = (r, w') ->
    step s (move s i (locked s) w' Exited (sandbox_of t)).

(** A sandbox is live from the return of [__aenter__] to the end of
    [cleanup]. *)
Definition live (t : task) : Prop :=
  at_point t = Entered \/ at_point t = Stopping.

(** What the model asks of the container runtime, for [names w] the
    container names the runtime knows in the world [w]: a listing that
    succeeds shows all of them, a [docker run --name n] that succeeds makes
    [n] known, and a name is forgotten only through a [docker rm] of that
    name. *)
Record docker_daemon (names : World -> list string) : Prop := {
  listing_complete w p w' n :
    run_to_completion docker_ps w = (Return p, w') -> returncode p = 0 ->
    n ∈ names w -> n ∈ splitlines (stdout p);
  started_is_known n w p w' :
    run_to_completion (docker_run n) w = (Return p, w') -> returncode p = 0 ->
    n ∈ names w';
  create_keeps args w n :
    n ∈ names w -> args <> docker_rm n ->
    n ∈ names (create_subprocess_exec args w).2;
  communicate_keeps proc w n :
    n ∈ names w -> proc_args proc <> docker_rm n ->
    n ∈ names (communicate proc w).2;
  wait_for_keeps proc t w n :
    n ∈ names w -> proc_args proc <> docker_rm n ->
    n ∈ names (wait_for_communicate proc t w).2;
  kill_keeps proc w n :
    n ∈ names w -> proc_args proc <> docker_rm n -> n ∈ names (kill proc w);
  wait_keeps proc w n :
    n ∈ names w -> proc_args proc <> docker_rm n -> n ∈ names (wait proc w);
  model_call_keeps model conversation descriptions w n :
    n ∈ names w ->
    n ∈ names (chat_completions_create model conversation descriptions w).2
}.

(** A task between [make_unique_container_name] and the return of
    [__aenter__], and a task inside [async with _container_creation_lock]. *)
Definition named (t : task) : Prop :=
  at_point t = Building \/ at_point t = Starting.
Definition holding (t : task) : Prop :=
  at_point t = Reserving \/ named t.

Definition name_of (t : task) : string := container_name (sandbox_of t).

(** What holds of every state the tasks can reach, for [names] as in
    [docker_daemon]. *)
Record invariant (names : World -> list string) (s : system) : Prop := {
  inv_known i t :
    tasks s !! i = Some t -> live t -> name_of t ∈ names (shared s);
  inv_distinct i j ti tj :
    i <> j -> tasks s !! i = Some ti -> tasks s !! j = Some tj ->
    live ti -> live tj -> name_of ti <> name_of tj;
  inv_fresh i j ti tj :
    tasks s !! i = Some ti -> tasks s !! j = Some tj ->
    named ti -> live tj -> name_of ti <> name_of tj;
  inv_unlocked i t :
    locked s = false -> tasks s !! i = Some t -> ~ holding t;
  inv_holder i j ti tj :
    tasks s !! i = Some ti -> tasks s !! j = Some tj ->
    holding ti -> holding tj -> i = j;
  inv_candidate i t :
    tasks s !! i = Some t -> named t \/ live t ->
    exists k, name_of t = candidate_name k
}.

(** The lock is taken exactly when some task is inside
    [async with _container_creation_lock], and no two tasks are. *)
Record lock_consistent (s : system) : Prop := {
  lock_taken :
    locked s = true -> exists i t, tasks s !! i = Some t /\ holding t;
  lock_free i t :
    locked s = false -> tasks s !! i = Some t -> ~ holding t;
  lock_exclusive i j ti tj :
    tasks s !! i = Some ti -> tasks s !! j = Some tj ->
    holding ti -> holding tj -> i = j
}.

(** The task [i] runs its [__aenter__] from the lock to its return with no
    other task in between; where a command fails, the state before it. *)
Definition open_alone (i : nat) (s : system) : system :=
  let s1 := move s i true (shared s) Reserving new_sandbox in
  match make_unique_container_name (shared s1) with
  | (Return name, w2) =>
      let sb := {| container_name := name |} in
      let s2 := move s1 i true w2 Building sb in
      match build_image w2 with
      | (Return _, w3) =>
          let s3 := move s2 i true w3 Starting sb in
          match start_container sb w3 with
          | (Return _, w4) => move s3 i false w4 Entered sb
          | (Raise _, _) => s3
          end
      | (Raise _, _) => s2
      end
  | (Raise _, _) => s1
  end.

End sandbox.

(** ** src/agent.py *)

(** One entry of [signature(self._call).parameters]: its name and whether
    [param.default] differs from [inspect.Parameter.empty]. *)
Record Param := { param_name : string; has_default : bool }.

(** The keyword arguments of a call. *)
Definition kwargs := list (string * json).

(** A record of every entry into a tool's [_call], kept beside the world to
    state how often an action ran; the Python code has no such record. *)
Record Invocation := { inv_tool : string; inv_kwargs : kwargs }.

Module Tool.
Section tool.
Context {lib : PyLib} {rt : Runtime}.

(** An instance of a subclass of the abstract class [Tool]: its two abstract
    methods, the signature of its [_call], and whether it is a [FinishTool].
    [_call] returns a [str] or [None], as the annotation [-> str | None] of
    [call] has [beartype] require of what [call] passes on. *)
Record t := {
  is_FinishTool : bool;
  description_for_openai_api : FunctionDescription;
  parameters : list Param;
  _call : kwargs -> M World (option string)
}.

Record Env := { world : World; invocations : list Invocation }.

(** [await self._call] with the payload as keyword arguments *)
Definition invoke (self : t) (arguments : kwargs) : M Env (option string) :=
  fun s =>
    let (r, w') := _call self arguments (world s) in
    (r, {| world := w';
           invocations := invocations s ++
             [{| inv_tool := fn_name (description_for_openai_api self);
                 inv_kwargs := arguments |}] |}).

Definition required_arguments (self : t) : list string :=
  param_name <$> filter (fun param => has_default param = false) (parameters self).

Definition optional_arguments (self : t) : list string :=
  param_name <$> filter (fun param => has_default param = true) (parameters self).

Definition call (self : t) (json_arguments : string) : M Env (option string) :=
  match json_loads json_arguments with
  | None => ret None
  | Some (JDict arguments) =>
      if negb (bool_decide (required_arguments self ⊆ arguments.*1))
      then ret None
      else if negb (bool_decide
                (arguments.*1 ⊆ required_arguments self ++ optional_arguments self))
      then ret None
      else invoke self arguments
  | Some _ => ret None
  end.

End tool.
End Tool.

Module FinishTool.
Section finish_tool.
Context {lib : PyLib} {rt : Runtime}.

Definition description_for_openai_api : FunctionDescription :=
  {| fn_name := "finish";
     fn_description := "Call this tool when you are done. Do not call it unless you have checked that you have completed the task successfully.";
     fn_parameters := JNull |}.

(** [async def _call(self) -> None: pass] *)
Definition _call (arguments : kwargs) : M World (option string) :=
  match arguments with
  | [] => ret None
  | _ => raise TypeError
  end.

Definition new : Tool.t :=
  {| Tool.is_FinishTool := true;
     Tool.description_for_openai_api := description_for_openai_api;
     Tool.parameters := [];
     Tool._call := _call |}.

End finish_tool.
End FinishTool.

Module BashTool.
Section bash_tool.
Context {lib : PyLib} {rt : Runtime}.

Record t := {
  sandbox : DockerSandbox;
  verbose : bool;
  max_output_length : Z
}.

Definition default_verbose : bool := false.
Definition default_max_output_length : Z := 1024.

Definition description_for_openai_api : FunctionDescription :=
  {| fn_name := "run_bash_command";
     fn_description := "Run a bash command and return the output.";
     fn_parameters :=
       JDict [("type", JStr "object");
              ("properties", JDict [("command", JDict [("type", JStr "string")])]);
              ("required", JList [JStr "command"]);
              ("additionalProperties", JBool false)]%string |}.

Definition TRUNCATED : string := "[TRUNCATED]".

(** Python reads [-self.max_output_length // 2] as
    [(-self.max_output_length) // 2]; [//] rounds down, as [Z.div] does for
    the divisor 2. *)
Definition _truncate (self : t) (text : string) : string :=
  if Py.len text <=? max_output_length self then text
  else Py.slice_to text (max_output_length self / 2)
       +:+ TRUNCATED
       +:+ Py.slice_from text ((- max_output_length self) / 2).

(** The body of [_call(self, command: str)]; the [print]s under
    [self.verbose] are left out. *)
Definition _call_command (self : t) (command : string) : M World (option string) :=
  result <- run_command (sandbox self) command default_timeout_seconds ;;
  ret (Some (json_dumps
    (JDict [("exit_code", JInt (returncode result));
            ("stdout", JStr (_truncate self (stdout result)));
            ("stderr", JStr (_truncate self (stderr result)))]%string))).

(** [_call] on keyword arguments: the one parameter is bound by name, and
    [beartype] rejects a [command] that is not a [str] before the body
    runs. *)
Definition _call (self : t) (arguments : kwargs) : M World (option string) :=
  match arguments with
  | [(name, value)] =>
      if bool_decide (name = "command"%string) then
        match value with
        | JStr command => _call_command self command
        | _ => raise BeartypeCallHintParamViolation
        end
      else raise TypeError
  | _ => raise TypeError
  end.

Definition as_tool (self : t) : Tool.t :=
  {| Tool.is_FinishTool := false;
     Tool.description_for_openai_api := description_for_openai_api;
     Tool.parameters := [{| param_name := "command"; has_default := false |}];
     Tool._call := _call self |}.

End bash_tool.
End BashTool.

Module Agent.
Section agent.
Context {lib : PyLib} {rt : Runtime}.

Record t := {
  model : string;
  tools : list Tool.t;
  max_turns : Z;
  system_message : option string
}.

Definition default_max_turns : Z := 15.

Definition default_system_message : option string :=
  Some "You are an agent that can call tools to complete a task. You are very thorough and do never give up. If something doesn't work, you make the changes that make are most likely to make it work and keep trying until it works. There is no human in the loop, so you cannot ask for help or ask for clarification. Before you call the finish tool, you must checked whether you have completed the task successfully. If it turns out that what you did failed complete the task, you should retry completing the task and not call the finish tool. When you are sure that you have completed the task successfully, call the finish tool."%string.

Definition __post_init__ (self : t) : t :=
  if existsb Tool.is_FinishTool (tools self) then self
  else {| model := model self;
          tools := tools self ++ [FinishTool.new];
          max_turns := max_turns self;
          system_message := system_message self |}.

(** The dataclass constructor: the fields, then [__post_init__]. *)
Definition new (model : string) (tools : list Tool.t) (max_turns : Z)
    (system_message : option string) : t :=
  __post_init__ {| model := model; tools := tools; max_turns := max_turns;
                   system_message := system_message |}.

Definition _chatbot_response (self : t) (conversation : list message)
  : World -> ChatCompletionMessage * World :=
  chat_completions_create (model self) conversation
    (Tool.description_for_openai_api <$> tools self).

(** How [run] came to return [None]: by the [return] under [if finished], or
    by leaving the [for] loop. *)
Inductive ending := Finished | TurnsExhausted.

(** What [run] leaves behind: its local [conversation], the world and the
    record of tool actions. *)
Record outcome (A : Type) := {
  returned : result A;
  final_conversation : list message;
  final_env : Tool.Env
}.
Arguments returned {A} o.
Arguments final_conversation {A} o.
Arguments final_env {A} o.

(** [json.dumps(returned)] for [returned : str | None] *)
Definition dumps_returned (returned : option string) : string :=
  json_dumps (match returned with Some s => JStr s | None => JNull end).

(** [next((tool for tool in self.tools if ... == tool_call.function.name), None)] *)
Definition find_tool (self : t) (tool_call : ToolCall) : option Tool.t :=
  List.find
    (fun tool => bool_decide
       (fn_name (Tool.description_for_openai_api tool) = tc_function_name tool_call))
    (tools self).

(** [for tool_call in response.tool_calls: ...]; the value returned is the
    flag [finished] after the loop. *)
Fixpoint tool_calls_loop (self : t) (calls : list ToolCall)
    (conversation : list message) (s : Tool.Env) : outcome bool :=
  match calls with
  | [] => {| returned := Return false; final_conversation := conversation; final_env := s |}
  | tool_call :: rest =>
      match find_tool self tool_call with
      | None =>
          {| returned := Raise AssertionError; final_conversation := conversation; final_env := s |}
      | Some tool =>
          if Tool.is_FinishTool tool
          then {| returned := Return true; final_conversation := conversation; final_env := s |}
          else
            match Tool.call tool (tc_function_arguments tool_call) s with
            | (Raise e, s') =>
                {| returned := Raise e; final_conversation := conversation; final_env := s' |}
            | (Return returned, s') =>
                tool_calls_loop self rest
                  (conversation ++
                     [Dict Rtool (dumps_returned returned) (Some (tc_id tool_call))])
                  s'
            end
      end
  end.

Definition steering : string :=
  "You should call tools instead of giving chat responses.".

(** [for _ in range(self.max_turns): ...], with [n] turns left. *)
Fixpoint turns_loop (self : t) (n : nat) (conversation : list message)
    (s : Tool.Env) : outcome ending :=
  match n with
  | O => {| returned := Return TurnsExhausted; final_conversation := conversation; final_env := s |}
  | S n' =>
      let (response, w') := _chatbot_response self conversation (Tool.world s) in
      let s := {| Tool.world := w'; Tool.invocations := Tool.invocations s |} in
      let conversation := conversation ++ [Response response] in
      match tool_calls response with
      | None =>
          match content response with
          | None =>
              {| returned := Raise AssertionError; final_conversation := conversation;
                 final_env := s |}
          | Some text =>
              turns_loop self n'
                (conversation ++ [Dict Rassistant text None; Dict Ruser steering None])
                s
          end
      | Some calls =>
          let o := tool_calls_loop self calls conversation s in
          match returned o with
          | Raise e =>
              {| returned := Raise e; final_conversation := final_conversation o;
                 final_env := final_env o |}
          | Return true =>
              {| returned := Return Finished; final_conversation := final_conversation o;
                 final_env := final_env o |}
          | Return false => turns_loop self n' (final_conversation o) (final_env o)
          end
      end
  end.

(** The conversation before the first turn. *)
Definition seed (self : t) (prompt : string) : list message :=
  let conversation := [Dict Ruser prompt None] in
  match system_message self with
  | Some text => conversation ++ [Dict Rsystem text None]
  | None => conversation
  end.

Definition run (self : t) (prompt : string) (w : World) : outcome ending :=
  turns_loop self (Z.to_nat (max_turns self)) (seed self prompt)
    {| Tool.world := w; Tool.invocations := [] |}.

End agent.

Arguments returned {rt A} o.
Arguments final_conversation {rt A} o.
Arguments final_env {rt A} o.

End Agent.

(** ** Vocabulary of the claims on [Tool.call] and [Agent.run] *)

Section vocabulary.
Context {lib : PyLib} {rt : Runtime}.
Implicit Types (self : Tool.t) (arguments : kwargs).

(** A payload [Tool.call] does not pass on to the action: it does not parse,
    or parses to something other than an object, or lacks a required
    parameter, or names a parameter that is neither required nor optional. *)
Definition rejected self (json_arguments : string) : Prop :=
  json_loads json_arguments = None
  \/ (exists v, json_loads json_arguments = Some v /\ forall d, v <> JDict d)
  \/ (exists d, json_loads json_arguments = Some (JDict d) /\
        ((exists name, name ∈ Tool.required_arguments self /\ name ∉ d.*1)
         \/ (exists name, name ∈ d.*1 /\
               (name ∉ Tool.required_arguments self) /\
               (name ∉ Tool.optional_arguments self)))).

(** A payload that parses to an object with every required parameter and
    no name beyond the required and the optional ones. *)
Definition accepted self (json_arguments : string) arguments : Prop :=
  json_loads json_arguments = Some (JDict arguments)
  /\ (forall name, name ∈ Tool.required_arguments self -> name ∈ arguments.*1)
  /\ (forall name, name ∈ arguments.*1 ->
        name ∈ Tool.required_arguments self \/ name ∈ Tool.optional_arguments self).

(** The model service answers every request of this agent with text and
    without tool calls. *)
Definition always_plain_text (self : Agent.t) : Prop :=
  forall conversation w,
    let response := fst (Agent._chatbot_response self conversation w) in
    tool_calls response = None /\ content response <> None.

(** The entries of a conversation that are responses of the model service:
    one is appended per request. *)
Definition is_Response (m : message) : bool :=
  match m with Response _ => true | Dict _ _ _ => false end.

Definition model_calls (conversation : list message) : nat :=
  length (List.filter is_Response conversation).

(** A tool-role message answering the call [tool_call]. *)
Definition tool_message_for (m : message) (tool_call : ToolCall) : Prop :=
  exists text, m = Dict Rtool text (Some (tc_id tool_call)).

(** The call resolves to a tool that is a [FinishTool]. *)
Definition resolves_to_finish (self : Agent.t) (tool_call : ToolCall) : Prop :=
  exists tool, Agent.find_tool self tool_call = Some tool
               /\ Tool.is_FinishTool tool = true.

End vocabulary.

(** ** Python dictionaries

    A [dict] as the list of its items in insertion order; assigning to a key
    already present replaces its value where it stands. *)

Module PyDict.
Section dict.
Context {K V : Type} `{EqDecision K}.

Fixpoint set (k : K) (v : V) (d : list (K * V)) : list (K * V) :=
  match d with
  | [] => [(k, v)]
  | (k', v') :: d' =>
      if decide (k' = k) then (k', v) :: d' else (k', v') :: set k v d'
  end.

Fixpoint get (k : K) (d : list (K * V)) : option V :=
  match d with
  | [] => None
  | (k', v') :: d' => if decide (k' = k) then Some v' else get k d'
  end.

(** [dict(pairs)] *)
Definition of_pairs (pairs : list (K * V)) : list (K * V) :=
  foldl (fun d kv => set kv.1 kv.2 d) [] pairs.

End dict.
End PyDict.

(** ** src/evaluate.py and main.py: the fan-out *)

Module Evaluate.

Definition default_model : string := "gpt-4o-mini".
Definition default_max_turns : Z := 15.
Definition default_max_run_in_parallel : Z := 64.

(** The keyword arguments of [evaluate_agent_multiple_tasks] that have a
    default; [None] is an argument the caller leaves out. *)
Record keywords := {
  model : option string;
  max_turns : option Z;
  max_run_in_parallel : option Z
}.

Definition no_keywords : keywords :=
  {| model := None; max_turns := None; max_run_in_parallel := None |}.

(** main.py: [evaluate_agent_multiple_tasks(tasks, max_run_in_parallel=256)] *)
Definition main_keywords : keywords :=
  {| model := None; max_turns := None; max_run_in_parallel := Some 256 |}.

(** One [evaluate_one] coroutine: before [async with semaphore], inside it,
    after it. *)
Inductive job := Queued | Evaluating | Done.

(** [semaphore._value] and the coroutines handed to [gather]. *)
Record fanout := { value : Z; jobs : list job }.

(** [asyncio.Semaphore(value)] *)
Definition Semaphore (value : Z) : result Z :=
  if value <? 0 then Raise ValueError else Return value.

(** [evaluate_agent_multiple_tasks] up to the creation of the coroutines,
    for [n] tasks. *)
Definition evaluate_agent_multiple_tasks (n : nat) (kw : keywords)
  : result fanout :=
  match Semaphore (default default_max_run_in_parallel (max_run_in_parallel kw)) with
  | Return v => Return {| value := v; jobs := replicate n Queued |}
  | Raise e => Raise e
  end.

(** [acquire] takes a permit when one is left; leaving the [async with]
    block, by return or by exception, gives it back. *)
Inductive fan_step : fanout -> fanout -> Prop :=
| fan_enter f i :
    jobs f !! i = Some Queued -> 0 < value f ->
    fan_step f {| value := value f - 1; jobs := <[i := Evaluating]> (jobs f) |}
| fan_leave f i :
    jobs f !! i = Some Evaluating ->
    fan_step f {| value := value f + 1; jobs := <[i := Done]> (jobs f) |}.

Definition is_evaluating (j : job) : bool :=
  match j with Evaluating => true | _ => false end.

(** The number of orchestrators running at once. *)
Definition evaluating (f : fanout) : Z :=
  Z.of_nat (length (List.filter is_evaluating (jobs f))).

(** *** Tasks, results and the table *)

Record Task := {
  category : string;
  description : string;
  public_tests : string;
  private_tests : string
}.

Record EvaluationResult := {
  public_tests_passed : bool;
  private_tests_passed : bool
}.

(** A frozen dataclass compares by its fields. *)
Global Instance Task_eq_dec : EqDecision Task.
Proof. solve_decision. Defined.

(** [return dict(zip(tasks, results))], with [results] what [gather] gave. *)
Definition results_dict (tasks : list Task) (results : list EvaluationResult)
  : list (Task * EvaluationResult) :=
  PyDict.of_pairs (zip tasks results).

Definition headers : list string :=
  ["category"; "both failed"; "public passed"; "private passed"; "both passed"]%string.

(** The pairs [(private_passed, public_passed)] the columns run over. *)
Definition buckets : list (bool * bool) :=
  [(false, false); (false, true); (true, false); (true, true)].

(** [len([task for task, result in evaluation_results.items() if ...])] *)
Definition count_bucket (evaluation_results : list (Task * EvaluationResult))
    (task_category : string) (private_passed public_passed : bool) : nat :=
  length (List.filter
    (fun item : Task * EvaluationResult =>
       bool_decide (category item.1 = task_category)
       && bool_decide (private_tests_passed item.2 = private_passed)
       && bool_decide (public_tests_passed item.2 = public_passed))
    evaluation_results).

(** [list(set(task.category for task in evaluation_results.keys()))]; Python
    fixes no order for it, the model takes the order of first occurrence. *)
Definition task_categories (evaluation_results : list (Task * EvaluationResult))
  : list string :=
  remove_dups ((fun item : Task * EvaluationResult => category item.1)
                 <$> evaluation_results).

(** One row of [table]: the category, then one count per bucket. *)
Definition table_row (evaluation_results : list (Task * EvaluationResult))
    (task_category : string) : string * list nat :=
  (task_category,
   (fun b : bool * bool => count_bucket evaluation_results task_category b.1 b.2)
     <$> buckets).

(** The [table] that [print_evaluation_results] hands to [tabulate]. *)
Definition table (evaluation_results : list (Task * EvaluationResult))
  : list (string * list nat) :=
  table_row evaluation_results <$> task_categories evaluation_results.

(** The number of entries of a category, for the statements about [table]. *)
Definition entries_in (evaluation_results : list (Task * EvaluationResult))
    (task_category : string) : nat :=
  length (List.filter
    (fun item : Task * EvaluationResult =>
       bool_decide (category item.1 = task_category))
    evaluation_results).

(** *** [evaluate_agent] *)

Section evaluate_agent.
Context {lib : PyLib} {rt : Runtime}.

Definition LF : string := String "010"%char EmptyString.

Definition write_public_tests (task : Task) : string :=
  "cat << EOF > public_tests.py" +:+ LF +:+ public_tests task +:+ LF +:+ "EOF".

Definition write_private_tests (task : Task) : string :=
  "cat << EOF > private_tests.py" +:+ LF +:+ private_tests task +:+ LF +:+ "EOF".

(** The agent [evaluate_agent] builds around the sandbox. *)
Definition agent_for (sandbox : DockerSandbox) (model_name : string)
    (turns : Z) : Agent.t :=
  Agent.new model_name
    [BashTool.as_tool {| BashTool.sandbox := sandbox;
                         BashTool.verbose := BashTool.default_verbose;
                         BashTool.max_output_length :=
                           BashTool.default_max_output_length |}]
    turns Agent.default_system_message.

(** The statements after [await agent.run(task.description)]. *)
Definition run_tests (sandbox : DockerSandbox) (task : Task)
  : M World EvaluationResult :=
  run_command sandbox (write_public_tests task) default_timeout_seconds ;;;
  public_tests_completed_process <-
    run_command sandbox "pytest public_tests.py" default_timeout_seconds ;;
  run_command sandbox (write_private_tests task) default_timeout_seconds ;;;
  private_tests_completed_process <-
    run_command sandbox "pytest private_tests.py" default_timeout_seconds ;;
  ret {| public_tests_passed :=
           bool_decide (returncode public_tests_completed_process = 0);
         private_tests_passed :=
           bool_decide (returncode private_tests_completed_process = 0) |}.

(** The block under [async with DockerSandbox() as sandbox]. *)
Definition evaluate_in (sandbox : DockerSandbox) (task : Task)
    (model_name : string) (turns : Z) : M World EvaluationResult :=
  fun w =>
    let o := Agent.run (agent_for sandbox model_name turns) (description task) w in
    match Agent.returned o with
    | Raise e => (Raise e, Tool.world (Agent.final_env o))
    | Return _ => run_tests sandbox task (Tool.world (Agent.final_env o))
    end.

(** [evaluate_agent], for one task running alone.  [__aexit__] runs when
    the block is left, by return or by exception, and passes an exception
    on; it does not run when [__aenter__] raised. *)
Definition evaluate_agent (task : Task) (model_name : string) (turns : Z)
  : M World EvaluationResult :=
  fun w =>
    match __aenter__ new_sandbox w with
    | (Raise e, w1) => (Raise e, w1)
    | (Return sandbox, w1) =>
        let (r, w2) := evaluate_in sandbox task model_name turns w1 in
        (r, (cleanup sandbox w2).2)
    end.

End evaluate_agent.

End Evaluate.

(** * A small simulated world, for closed examples

    A stand-in for the libraries and for the container runtime: the
    container names it knows, the exit status of each finished process, and
    a model service given as a function of the conversation.  A line ends
    at a line feed only; JSON is the table of the payloads the examples
    use. *)

Module Sim.

Definition LF : ascii := "010"%char.
Definition quote : string := String "034"%char "".

Definition newline_free (s : string) : Prop := LF ∉ Py.chars s.

Fixpoint split_lf (s : string) : list string :=
  match s with
  | EmptyString => []
  | String c s' =>
      if bool_decide (c = LF) then EmptyString :: split_lf s'
      else match split_lf s' with
           | [] => [String c EmptyString]
           | line :: lines => String c line :: lines
           end
  end.

Definition join_lf (lines : list string) : string :=
  foldr (fun line rest => line +:+ String LF rest) EmptyString lines.

Definition encode (s : string) : bytes := byte_of_ascii <$> Py.chars s.
Definition decode_ascii (b : bytes) : string := Py.of_chars (ascii_of_byte <$> b).

Definition echo_payload : string :=
  "{" +:+ quote +:+ "command" +:+ quote +:+ ": "
      +:+ quote +:+ "echo hi" +:+ quote +:+ "}".

Definition loads (s : string) : option json :=
  if bool_decide (s = echo_payload)
  then Some (JDict [("command"%string, JStr "echo hi")])
  else if bool_decide (s = "{}"%string) then Some (JDict [])
  else if bool_decide (s = "[]"%string) then Some (JList [])
  else None.

Definition dumps (j : json) : string :=
  match j with
  | JNull => "null"
  | JStr s => quote +:+ s +:+ quote
  | JInt z => pretty z
  | JBool true => "true"
  | JBool false => "false"
  | JFloat literal => literal
  | JList _ => "[...]"
  | JDict _ => "{...}"
  end.

Definition lib : PyLib :=
  {| json_loads := loads; json_dumps := dumps;
     decode := decode_ascii; splitlines := split_lf |}.

Record world := {
  daemon_up : bool;
  containers : list string;
  exits : list (Z * Z);
  next_pid : Z;
  sandbox_dir : bool
}.

Inductive command :=
| Ps
| Run (name : string)
| Rm (name : string)
| Exec (name script : string)
| Other.

Definition parse (args : list string) : command :=
  if bool_decide (args = docker_ps) then Ps
  else match args with
       | [_; _; name] =>
           if bool_decide (args = docker_rm name) then Rm name else Other
       | [_; _; name; _; _; script] =>
           if bool_decide (args = docker_exec name script)
           then Exec name script else Other
       | _ :: _ :: _ :: _ :: name :: _ =>
           if bool_decide (args = docker_run name) then Run name else Other
       | _ => Other
       end.

Definition finish (proc : Process) (status : Z) (names : list string)
    (w : world) : world :=
  {| daemon_up := daemon_up w;
     containers := names; exits := (pid proc, status) :: exits w;
     next_pid := next_pid w; sandbox_dir := sandbox_dir w |}.

Definition sim_create (args : list string) (w : world) : Z * world :=
  (next_pid w,
   {| daemon_up := daemon_up w;
      containers := containers w; exits := exits w;
      next_pid := next_pid w + 1; sandbox_dir := sandbox_dir w |}).

Definition sim_communicate (proc : Process) (w : world)
  : (bytes * bytes) * world :=
  match parse (proc_args proc) with
  | Ps =>
      if daemon_up w
      then ((encode (join_lf (filter newline_free (containers w))), []),
            finish proc 0 (containers w) w)
      else (([], encode "Cannot connect to the Docker daemon."),
            finish proc 1 (containers w) w)
  | Run name =>
      if bool_decide (newline_free name /\ name ∉ containers w)
      then ((encode name, []), finish proc 0 (name :: containers w) w)
      else (([], encode "Conflict."), finish proc 125 (containers w) w)
  | Rm name =>
      ((encode name, []),
       finish proc 0 (filter (fun n => n <> name) (containers w)) w)
  | Exec _ _ => (([], []), finish proc 0 (containers w) w)
  | Other => (([], []), finish proc 0 (containers w) w)
  end.

(** A script [sleep infinity] outlasts every timeout. *)
Definition sim_wait_for (proc : Process) (timeout : Z) (w : world)
  : option (bytes * bytes) * world :=
  match parse (proc_args proc) with
  | Exec _ script =>
      if bool_decide (script = "sleep infinity"%string) then (None, w)
      else let (r, w') := sim_communicate proc w in (Some r, w')
  | _ => let (r, w') := sim_communicate proc w in (Some r, w')
  end.

Definition sim_returncode (proc : Process) (w : world) : Z :=
  match List.find (fun e => bool_decide (e.1 = pid proc)) (exits w) with
  | Some e => e.2
  | None => 0
  end.

Definition sim_kill (proc : Process) (w : world) : world :=
  finish proc (-9) (containers w) w.

Definition runtime
    (chat : list message -> ChatCompletionMessage) : Runtime :=
  {| World := world;
     create_subprocess_exec := sim_create;
     communicate := sim_communicate;
     wait_for_communicate := sim_wait_for;
     proc_returncode := sim_returncode;
     kill := sim_kill;
     wait := fun _ w => w;
     is_dir := fun _ w => sandbox_dir w;
     chat_completions_create := fun _ conversation _ w => (chat conversation, w) |}.

Definition names (w : world) : list string :=
  filter newline_free (containers w).

Definition fresh : world :=
  {| daemon_up := true; containers := []; exits := []; next_pid := 100;
     sandbox_dir := true |}.

Definition daemon_down : world :=
  {| daemon_up := false; containers := []; exits := []; next_pid := 100;
     sandbox_dir := true |}.

(** A model service that only chats. *)
Definition chatty (conversation : list message) : ChatCompletionMessage :=
  {| content := Some "Hello."%string; tool_calls := None |}.

(** A model service that asks, in one turn, for [finish] and then for a
    shell command. *)
Definition finish_then_bash (conversation : list message)
  : ChatCompletionMessage :=
  {| content := None;
     tool_calls := Some
       [{| tc_id := "call_1"; tc_function_name := "finish";
           tc_function_arguments := "{}" |};
        {| tc_id := "call_2"; tc_function_name := "run_bash_command";
           tc_function_arguments := echo_payload |}]%string |}.

End Sim.

(** ** Closed instances in the simulated world *)

Definition chatty_rt : Runtime := Sim.runtime Sim.chatty.

Definition sim_bash (bound : Z) : BashTool.t :=
  {| BashTool.sandbox := {| container_name := candidate_name 0 |};
     BashTool.verbose := BashTool.default_verbose;
     BashTool.max_output_length := bound |}.

Definition sim_bash_tool (chat : list message -> ChatCompletionMessage)
  : Tool.t (rt := Sim.runtime chat) :=
  BashTool.as_tool (lib := Sim.lib) (sim_bash 1024).

Definition sim_env (chat : list message -> ChatCompletionMessage)
  : Tool.Env (rt := Sim.runtime chat) :=
  Tool.Build_Env (rt := Sim.runtime chat) Sim.fresh [].

Definition sim_agent (chat : list message -> ChatCompletionMessage)
    (max_turns : Z) (system_message : option string)
  : Agent.t (rt := Sim.runtime chat) :=
  Agent.new "gpt-4o-mini" [sim_bash_tool chat] max_turns system_message.

(** A model service that asks for a shell command and then for [finish]. *)
Definition bash_then_finish (conversation : list message)
  : ChatCompletionMessage :=
  {| content := None;
     tool_calls := Some
       [{| tc_id := "call_1"; tc_function_name := "run_bash_command";
           tc_function_arguments := Sim.echo_payload |};
        {| tc_id := "call_2"; tc_function_name := "finish";
           tc_function_arguments := "{}" |}]%string |}.

(** A world where two containers are known already. *)
Definition sim_two_known : Sim.world :=
  {| Sim.daemon_up := true;
     Sim.containers := [candidate_name 1; candidate_name 0];
     Sim.exits := []; Sim.next_pid := 100; Sim.sandbox_dir := true |}.

(** Two tasks, each having run its [__aenter__] alone, one after the other. *)
Definition sim_both_live : system (rt := chatty_rt) :=
  open_alone (lib := Sim.lib) 1
    (open_alone (lib := Sim.lib) 0 (initial (rt := chatty_rt) 2 Sim.fresh)).

(** More of the simulated world: two more payloads for [json.loads], a
    runtime where every command run under a timeout outlasts it, a world
    without the build directory, and a task. *)

Definition number_payload : string :=
  "{" +:+ Sim.quote +:+ "command" +:+ Sim.quote +:+ ": 5}".

Definition sleep_payload : string :=
  "{" +:+ Sim.quote +:+ "command" +:+ Sim.quote +:+ ": "
      +:+ Sim.quote +:+ "sleep infinity" +:+ Sim.quote +:+ "}".

Definition sim_loads_more (s : string) : option json :=
  if bool_decide (s = number_payload)
  then Some (JDict [("command"%string, JInt 5)])
  else if bool_decide (s = sleep_payload)
  then Some (JDict [("command"%string, JStr "sleep infinity")])
  else Sim.loads s.

Definition sim_lib_more : PyLib :=
  {| json_loads := sim_loads_more; json_dumps := Sim.dumps;
     decode := Sim.decode_ascii; splitlines := Sim.split_lf |}.

Definition sim_slow_rt : Runtime :=
  {| World := Sim.world;
     create_subprocess_exec := Sim.sim_create;
     communicate := Sim.sim_communicate;
     wait_for_communicate := fun _ _ w => (None, w);
     proc_returncode := Sim.sim_returncode;
     kill := Sim.sim_kill;
     wait := fun _ w => w;
     is_dir := fun _ w => Sim.sandbox_dir w;
     chat_completions_create :=
       fun _ conversation _ w => (Sim.chatty conversation, w) |}.

Definition sim_no_directory : Sim.world :=
  {| Sim.daemon_up := true; Sim.containers := []; Sim.exits := [];
     Sim.next_pid := 100; Sim.sandbox_dir := false |}.

Definition sim_task (name : string) : Evaluate.Task :=
  {| Evaluate.category := "strings"; Evaluate.description := name;
     Evaluate.public_tests := "def test_public(): assert True";
     Evaluate.private_tests := "def test_private(): assert True" |}.

Definition passed_both : Evaluate.EvaluationResult :=
  {| Evaluate.public_tests_passed := true;
     Evaluate.private_tests_passed := true |}.

Definition passed_public : Evaluate.EvaluationResult :=
  {| Evaluate.public_tests_passed := true;
     Evaluate.private_tests_passed := false |}.

(** A model service that asks for a tool the agent does not have. *)
Definition unknown_tool (conversation : list message) : ChatCompletionMessage :=
  {| content := None;
     tool_calls := Some
       [{| tc_id := "call_1"; tc_function_name := "read_file";
           tc_function_arguments := "{}" |}]%string |}.

(** * Properties *)

(** ** Lemmas on Python strings *)

Lemma of_chars_chars s : Py.of_chars (Py.chars s) = s.
Proof. induction s as [|c s IH]; simpl; [done | by rewrite IH]. Qed.

Lemma chars_of_chars l : Py.chars (Py.of_chars l) = l.
Proof. induction l as [|c l IH]; simpl; [done | by rewrite IH]. Qed.

Lemma chars_app s1 s2 : Py.chars (s1 +:+ s2) = Py.chars s1 ++ Py.chars s2.
Proof. induction s1 as [|c s1 IH]; simpl; [done | by rewrite IH]. Qed.

Lemma of_chars_app l1 l2 :
  Py.of_chars (l1 ++ l2) = Py.of_chars l1 +:+ Py.of_chars l2.
Proof. induction l1 as [|c l1 IH]; simpl; [done | by rewrite IH]. Qed.

Lemma length_chars s : length (Py.chars s) = String.length s.
Proof. induction s as [|c s IH]; simpl; [done | by rewrite IH]. Qed.

Lemma len_chars s : Py.len s = Z.of_nat (length (Py.chars s)).
Proof. unfold Py.len. by rewrite length_chars. Qed.

Lemma len_of_chars l : Py.len (Py.of_chars l) = Z.of_nat (length l).
Proof. by rewrite len_chars, chars_of_chars. Qed.

Lemma len_app s1 s2 : Py.len (s1 +:+ s2) = Py.len s1 + Py.len s2.
Proof. rewrite !len_chars, chars_app, length_app. lia. Qed.

Lemma len_nonneg s : 0 <= Py.len s.
Proof. unfold Py.len. lia. Qed.

(** ** [BashTool._truncate] *)

Section truncate.
Variable self : BashTool.t.
Let m := BashTool.max_output_length self.

Lemma len_TRUNCATED : Py.len BashTool.TRUNCATED = 11.
Proof. reflexivity. Qed.

(** A string made of a head of [m / 2] characters, the marker and a tail of
    the remaining [m - m / 2] characters is left as it is. *)
Lemma truncate_shape_fixed (P S : list ascii) :
  1 <= m ->
  Z.of_nat (length P) = m / 2 ->
  Z.of_nat (length S) = - ((- m) / 2) ->
  BashTool._truncate self
    (Py.of_chars P +:+ BashTool.TRUNCATED +:+ Py.of_chars S)
  = Py.of_chars P +:+ BashTool.TRUNCATED +:+ Py.of_chars S.
Proof.
  intros Hm HP HS. unfold BashTool._truncate. fold m.
  set (t := Py.of_chars P +:+ BashTool.TRUNCATED +:+ Py.of_chars S).
  assert (Hsum : m / 2 + - ((- m) / 2) = m).
  { pose proof (Z.div_mod m 2 ltac:(lia)).
    pose proof (Z.div_mod (- m) 2 ltac:(lia)).
    pose proof (Z.mod_pos_bound m 2 ltac:(lia)).
    pose proof (Z.mod_pos_bound (- m) 2 ltac:(lia)). lia. }
  assert (Hlen : Py.len t = m + 11).
  { unfold t. rewrite !len_app, !len_of_chars, len_TRUNCATED. lia. }
  assert (Hchars : Py.chars t = P ++ Py.chars BashTool.TRUNCATED ++ S).
  { unfold t. by rewrite !chars_app, !chars_of_chars. }
  destruct (Z.leb_spec (Py.len t) m) as [Hle|_]; [lia|].
  assert (Hneg : (- m) / 2 < 0) by (apply Z.div_lt_upper_bound; lia).
  assert (Hpos : 0 <= m / 2) by (apply Z.div_pos; lia).
  unfold Py.slice_to, Py.slice_from, Py.slice_index.
  rewrite Hlen, Hchars.
  destruct (Z.ltb_spec (m / 2) 0) as [?|_]; [lia|].
  destruct (Z.ltb_spec ((- m) / 2) 0) as [_|?]; [|lia].
  replace (Z.to_nat (Z.min (m / 2) (m + 11))) with (length P) by lia.
  rewrite take_app_length.
  replace (Z.to_nat (Z.max 0 (m + 11 + (- m) / 2)))
    with (length (P ++ Py.chars BashTool.TRUNCATED)).
  2:{ rewrite length_app. change (length (Py.chars BashTool.TRUNCATED)) with 11%nat. lia. }
  rewrite (assoc_L (++) P), drop_app_length. done.
Qed.

(** Past the bound, the result has that shape. *)
Lemma truncate_long (text : string) :
  1 <= m -> m < Py.len text ->
  exists P S,
    Z.of_nat (length P) = m / 2 /\
    Z.of_nat (length S) = - ((- m) / 2) /\
    BashTool._truncate self text
    = Py.of_chars P +:+ BashTool.TRUNCATED +:+ Py.of_chars S.
Proof.
  intros Hm Hlong. unfold BashTool._truncate. fold m.
  destruct (Z.leb_spec (Py.len text) m) as [?|_]; [lia|].
  assert (Hneg : (- m) / 2 < 0) by (apply Z.div_lt_upper_bound; lia).
  assert (Hpos : 0 <= m / 2) by (apply Z.div_pos; lia).
  assert (Hhalf : m / 2 <= m) by (apply Z.div_le_upper_bound; lia).
  assert (Hceil : - m <= (- m) / 2) by (apply Z.div_le_lower_bound; lia).
  unfold Py.slice_to, Py.slice_from, Py.slice_index.
  destruct (Z.ltb_spec (m / 2) 0) as [?|_]; [lia|].
  destruct (Z.ltb_spec ((- m) / 2) 0) as [_|?]; [|lia].
  pose proof (len_chars text) as Hcs.
  eexists _, _. split_and!; [| |reflexivity].
  - rewrite length_take. lia.
  - rewrite length_drop. lia.
Qed.

Lemma truncate_idempotent_pos (text : string) :
  1 <= m ->
  BashTool._truncate self (BashTool._truncate self text)
  = BashTool._truncate self text.
Proof.
  intros Hm. destruct (Z.le_gt_cases (Py.len text) m) as [Hshort|Hlong].
  - unfold BashTool._truncate. fold m.
    destruct (Z.leb_spec (Py.len text) m) as [_|?]; [|lia].
    by destruct (Z.leb_spec (Py.len text) m) as [_|?]; [|lia].
  - destruct (truncate_long text Hm Hlong) as (P & S & HP & HS & ->).
    by apply truncate_shape_fixed.
Qed.

Lemma truncate_length_pos (text : string) :
  1 <= m ->
  Py.len (BashTool._truncate self text) <= m + Py.len BashTool.TRUNCATED.
Proof.
  intros Hm. rewrite len_TRUNCATED.
  destruct (Z.le_gt_cases (Py.len text) m) as [Hshort|Hlong].
  - unfold BashTool._truncate. fold m.
    destruct (Z.leb_spec (Py.len text) m) as [_|?]; lia.
  - destruct (truncate_long text Hm Hlong) as (P & S & HP & HS & ->).
    rewrite !len_app, !len_of_chars, len_TRUNCATED.
    pose proof (Z.div_mod m 2 ltac:(lia)).
    pose proof (Z.div_mod (- m) 2 ltac:(lia)).
    pose proof (Z.mod_pos_bound m 2 ltac:(lia)).
    pose proof (Z.mod_pos_bound (- m) 2 ltac:(lia)). lia.
Qed.

(** With a bound of 0 or less the result is longer than the bound plus the
    marker, already on a text of one character. *)
Lemma truncate_nonpositive_bound :
  m <= 0 ->
  m + Py.len BashTool.TRUNCATED < Py.len (BashTool._truncate self "a").
Proof.
  intros Hm. rewrite len_TRUNCATED. unfold BashTool._truncate. fold m.
  destruct (Z.leb_spec (Py.len "a") m) as [Hle|_].
  { change (Py.len "a") with 1 in Hle. lia. }
  rewrite !len_app, len_TRUNCATED.
  destruct (decide (m = 0)) as [->|Hneg].
  - vm_compute. reflexivity.
  - pose proof (len_nonneg (Py.slice_to "a" (m / 2))).
    pose proof (len_nonneg (Py.slice_from "a" (- m / 2))). lia.
Qed.

End truncate.

(** ** [Tool.call] *)

Section tool_call.
Context {lib : PyLib} {rt : Runtime}.
Implicit Types (self : Tool.t) (arguments : kwargs) (s : Tool.Env).


Lemma call_not_parsed self json_arguments s :
  json_loads json_arguments = None ->
  Tool.call self json_arguments s = (Return None, s).
Proof. intros H. unfold Tool.call. by rewrite H. Qed.

Lemma call_not_object self json_arguments v s :
  json_loads json_arguments = Some v -> (forall d, v <> JDict d) ->
  Tool.call self json_arguments s = (Return None, s).
Proof.
  intros H Hv. unfold Tool.call. rewrite H.
  destruct v; try done. by destruct (Hv d).
Qed.

Lemma call_missing_required self json_arguments d name s :
  json_loads json_arguments = Some (JDict d) ->
  name ∈ Tool.required_arguments self -> name ∉ d.*1 ->
  Tool.call self json_arguments s = (Return None, s).
Proof.
  intros H Hin Hout. unfold Tool.call. rewrite H.
  rewrite bool_decide_false; [done|]. intros Hsub. by apply Hout, Hsub.
Qed.

Lemma call_unknown_name self json_arguments d name s :
  json_loads json_arguments = Some (JDict d) ->
  name ∈ d.*1 ->
  name ∉ Tool.required_arguments self -> name ∉ Tool.optional_arguments self ->
  Tool.call self json_arguments s = (Return None, s).
Proof.
  intros H Hin Hreq Hopt. unfold Tool.call. rewrite H.
  destruct (bool_decide _); [simpl|done].
  rewrite bool_decide_false; [done|]. intros Hsub.
  apply Hsub, elem_of_app in Hin. tauto.
Qed.

Lemma call_accepted self json_arguments arguments s :
  accepted self json_arguments arguments ->
  Tool.call self json_arguments s = Tool.invoke self arguments s.
Proof.
  intros (H & Hreq & Hnames). unfold Tool.call. rewrite H.
  rewrite bool_decide_true by (intros name; apply Hreq). simpl.
  rewrite bool_decide_true; [done|].
  intros name Hin. apply elem_of_app. by apply Hnames.
Qed.

End tool_call.

(** ** [Agent.run] *)

Section agent_run.
Context {lib : PyLib} {rt : Runtime}.
Implicit Types (self : Agent.t) (conversation : list message) (s : Tool.Env).

(** The conversation only grows: whatever a loop leaves behind starts with
    what it was given. *)
Lemma tool_calls_loop_extends self calls conversation s :
  conversation `prefix_of`
    Agent.final_conversation (Agent.tool_calls_loop self calls conversation s).
Proof.
  revert conversation s.
  induction calls as [|tool_call rest IH]; intros conversation s; simpl; [done|].
  destruct (Agent.find_tool self tool_call) as [tool|]; [|done].
  destruct (Tool.is_FinishTool tool); [done|].
  destruct (Tool.call tool _ s) as [[returned|e] s']; [|done].
  etrans; [|apply IH]. by apply prefix_app_r.
Qed.

Lemma turns_loop_extends self n conversation s :
  conversation `prefix_of`
    Agent.final_conversation (Agent.turns_loop self n conversation s).
Proof.
  revert conversation s.
  induction n as [|n IH]; intros conversation s; simpl; [done|].
  destruct (Agent._chatbot_response self conversation (Tool.world s))
    as [response w'].
  destruct (tool_calls response) as [calls|].
  - pose proof (tool_calls_loop_extends self calls
      (conversation ++ [Response response])
      {| Tool.world := w'; Tool.invocations := Tool.invocations s |}) as Hcalls.
    destruct (Agent.tool_calls_loop self calls _ _) as [[[|]|e] conv' s'];
      simpl in *.
    + etrans; [|exact Hcalls]. by apply prefix_app_r.
    + etrans; [|apply IH]. etrans; [|exact Hcalls]. by apply prefix_app_r.
    + etrans; [|exact Hcalls]. by apply prefix_app_r.
  - destruct (content response) as [text|]; simpl.
    + etrans; [|apply IH]. rewrite <- (assoc_L (++)). by apply prefix_app_r.
    + by apply prefix_app_r.
Qed.

Lemma run_extends_seed self prompt w :
  Agent.seed self prompt `prefix_of`
    Agent.final_conversation (Agent.run self prompt w).
Proof. apply turns_loop_extends. Qed.


Lemma turns_loop_plain_text self n conversation s :
  always_plain_text self ->
  let o := Agent.turns_loop self n conversation s in
  Agent.returned o = Return Agent.TurnsExhausted
  /\ length (Agent.final_conversation o) = (length conversation + 3 * n)%nat
  /\ Tool.invocations (Agent.final_env o) = Tool.invocations s.
Proof.
  intros Hplain. revert conversation s.
  induction n as [|n IH]; intros conversation s; simpl.
  { split_and!; [done|lia|done]. }
  pose proof (Hplain conversation (Tool.world s)) as [Hcalls Hcontent].
  simpl in Hcalls, Hcontent.
  destruct (Agent._chatbot_response self conversation (Tool.world s))
    as [response w']. simpl in Hcalls, Hcontent. rewrite Hcalls.
  destruct (content response) as [text|]; [|done].
  destruct (IH ((conversation ++ [Response response]) ++
                  [Dict Rassistant text None; Dict Ruser Agent.steering None])
               {| Tool.world := w'; Tool.invocations := Tool.invocations s |})
    as (Hret & Hlen & Hinv).
  split_and!; [done| |done].
  rewrite Hlen, !length_app. simpl. lia.
Qed.

Lemma length_seed self prompt :
  length (Agent.seed self prompt)
  = match Agent.system_message self with Some _ => 2%nat | None => 1%nat end.
Proof. unfold Agent.seed. by destruct (Agent.system_message self). Qed.

(** Calls placed after a call of the Finish tool are dropped by the [break]. *)
Lemma tool_calls_loop_break self tool_call tool rest conversation s :
  Agent.find_tool self tool_call = Some tool ->
  Tool.is_FinishTool tool = true ->
  Agent.tool_calls_loop self (tool_call :: rest) conversation s
  = {| Agent.returned := Return true;
       Agent.final_conversation := conversation;
       Agent.final_env := s |}.
Proof. intros Hfind Hfin. simpl. by rewrite Hfind, Hfin. Qed.

End agent_run.

(** ** [DockerSandbox]: one task *)

Section sandbox_alone.
Context {lib : PyLib} {rt : Runtime}.


Lemma run_to_completion_returns args w :
  exists p w', run_to_completion args w = (Return p, w').
Proof.
  unfold run_to_completion, bind, spawn, communicate_decoded.
  destruct (create_subprocess_exec args w) as [h w1].
  destruct (communicate _ w1) as [[out err] w2]. eauto.
Qed.

Lemma candidate_name_inj : Inj (=) (=) candidate_name.
Proof.
  intros i j H. unfold candidate_name in H.
  by apply (inj (String.append _)), (inj pretty) in H.
Qed.

Lemma count_loop_Some existing fuel i name :
  count_loop existing fuel i = Some name ->
  exists k, (i <= k)%nat /\ name = candidate_name k
    /\ (name ∉ existing)
    /\ forall j, (i <= j < k)%nat -> candidate_name j ∈ existing.
Proof.
  revert i. induction fuel as [|fuel IH]; intros i; simpl; [done|].
  case_bool_decide as Hin.
  - intros (k & Hik & -> & Hout & Hbelow)%IH.
    exists k. split_and!; [lia|done|done|].
    intros j Hj. destruct (decide (j = i)) as [->|]; [done|].
    apply Hbelow. lia.
  - intros [= <-]. exists i. split_and!; [done..|]. intros j Hj. lia.
Qed.

Lemma count_loop_None existing fuel i :
  count_loop existing fuel i = None ->
  forall j, (i <= j < i + fuel)%nat -> candidate_name j ∈ existing.
Proof.
  revert i. induction fuel as [|fuel IH]; intros i; simpl.
  { intros _ j Hj. lia. }
  case_bool_decide as Hin; [|done].
  intros Hrest j Hj. destruct (decide (j = i)) as [->|]; [done|].
  apply (IH _ Hrest). lia.
Qed.

(** The loop ends: among [length existing + 1] candidates, one is absent. *)
Lemma count_loop_total existing :
  is_Some (count_loop existing (S (length existing)) 0).
Proof.
  destruct (count_loop existing (S (length existing)) 0) eqn:Hloop; [by eexists|].
  exfalso.
  pose proof (count_loop_None _ _ _ Hloop) as Hall.
  assert (Hsub : candidate_name <$> seq 0 (S (length existing)) ⊆+ existing).
  { apply NoDup_submseteq.
    - apply (NoDup_fmap_2 candidate_name (Inj0 := candidate_name_inj)), NoDup_seq.
    - intros x (j & -> & Hj%elem_of_seq)%list_elem_of_fmap. apply Hall. lia. }
  apply submseteq_length in Hsub. rewrite length_fmap, length_seq in Hsub. lia.
Qed.

(** [make_unique_container_name], in terms of what the listing command
    gave. *)
Lemma make_unique_container_name_unfold w p w' :
  run_to_completion docker_ps w = (Return p, w') ->
  make_unique_container_name w
  = if bool_decide (returncode p ≠ 0)
    then (Raise (Exception ("Error getting existing containers: " +:+ stderr p)), w')
    else match count_loop (splitlines (stdout p))
                 (S (length (splitlines (stdout p)))) 0 with
         | Some name => (Return name, w')
         | None => (Raise LoopFuelExhausted, w')
         end.
Proof.
  unfold run_to_completion, make_unique_container_name, bind.
  destruct (spawn docker_ps w) as [[proc|e] w1]; [|done].
  destruct (communicate_decoded proc w1) as [[p'|e] w2]; [|done].
  intros [= -> ->]. case_bool_decide; [done|].
  by destruct (count_loop _ _ _).
Qed.

Lemma make_unique_container_name_ok w p w' :
  run_to_completion docker_ps w = (Return p, w') ->
  returncode p = 0 ->
  exists i,
    make_unique_container_name w = (Return (candidate_name i), w')
    /\ (candidate_name i ∉ splitlines (stdout p))
    /\ forall j, (j < i)%nat -> candidate_name j ∈ splitlines (stdout p).
Proof.
  intros Hrun Hrc. rewrite (make_unique_container_name_unfold _ _ _ Hrun).
  rewrite bool_decide_false by (intros ?; done).
  destruct (count_loop_total (splitlines (stdout p))) as [name Hloop].
  rewrite Hloop.
  destruct (count_loop_Some _ _ _ _ Hloop) as (k & _ & -> & Hout & Hbelow).
  exists k. split_and!; [done..|]. intros j Hj. apply Hbelow. lia.
Qed.

Lemma make_unique_container_name_raises w p w' :
  run_to_completion docker_ps w = (Return p, w') ->
  returncode p <> 0 ->
  make_unique_container_name w
  = (Raise (Exception ("Error getting existing containers: " +:+ stderr p)), w').
Proof.
  intros Hrun Hrc. rewrite (make_unique_container_name_unfold _ _ _ Hrun).
  by rewrite bool_decide_true.
Qed.

(** Every name [make_unique_container_name] returns is a candidate absent
    from the listing. *)
Lemma make_unique_container_name_Return w name w' :
  make_unique_container_name w = (Return name, w') ->
  exists p, run_to_completion docker_ps w = (Return p, w')
    /\ returncode p = 0
    /\ (name ∉ splitlines (stdout p))
    /\ exists i, name = candidate_name i.
Proof.
  destruct (run_to_completion_returns docker_ps w) as (p & w1 & Hrun).
  rewrite (make_unique_container_name_unfold _ _ _ Hrun).
  case_bool_decide as Hrc; [done|].
  destruct (count_loop _ _ _) as [name'|] eqn:Hloop; [|done].
  intros [= -> ->]. exists p.
  destruct (count_loop_Some _ _ _ _ Hloop) as (k & _ & -> & Hout & _).
  split_and!; [done| |done|by exists k].
  destruct (decide (returncode p = 0)); [done|]. by destruct Hrc.
Qed.

Lemma aenter_listing_fails self w p w' :
  run_to_completion docker_ps w = (Return p, w') ->
  returncode p <> 0 ->
  __aenter__ self w
  = (Raise (Exception ("Error getting existing containers: " +:+ stderr p)), w').
Proof.
  intros Hrun Hrc. unfold __aenter__, bind at 1.
  by rewrite (make_unique_container_name_raises _ _ _ Hrun Hrc).
Qed.

End sandbox_alone.

(** ** [DockerSandbox]: tasks opening sandboxes concurrently *)

Section sandbox_concurrent.
Context {lib : PyLib} {rt : Runtime}.


(** A task whose [__aenter__] raised takes no further step: it issues no
    command after the one that failed. *)
Lemma failed_is_final s s' i t e :
  step s s' -> tasks s !! i = Some t -> at_point t = Failed e ->
  tasks s' !! i = Some t.
Proof.
  intros Hstep Hi Hat.
  destruct Hstep as [s j tj Hj Hatj ? | s j tj ? ? Hj Hatj ? | s j tj ? ? Hj Hatj ?
    | s j tj ? Hj Hatj ? | s j tj ? ? Hj Hatj ? | s j tj ? Hj Hatj ?
    | s j tj ? ? Hj Hatj ? | s j tj ? ? ? ? Hj Hatj ? | s j tj ? ? ? ? ? Hj Hatj ?
    | s j tj ? ? Hj Hatj ? | s j tj ? ? Hj Hatj ?];
    simpl; (rewrite list_lookup_insert_ne; [done|]); intros ->; congruence.
Qed.

Variable names : World -> list string.
Hypothesis daemon : docker_daemon names.

Ltac spawn_never_raises H :=
  exfalso; unfold spawn in H;
  destruct (create_subprocess_exec _ _); discriminate H.

Lemma spawn_keeps args w proc w' n :
  spawn args w = (Return proc, w') ->
  n ∈ names w -> args <> docker_rm n ->
  n ∈ names w' /\ proc_args proc = args.
Proof.
  unfold spawn. intros Hspawn Hn Hargs.
  pose proof (create_keeps _ daemon args w n Hn Hargs) as Hkeep.
  destruct (create_subprocess_exec args w) as [h w1].
  by injection Hspawn as <- <-.
Qed.

Lemma run_to_completion_keeps args w r w' n :
  run_to_completion args w = (r, w') ->
  n ∈ names w -> args <> docker_rm n -> n ∈ names w'.
Proof.
  unfold run_to_completion, bind. intros Hrun Hn Hargs.
  destruct (spawn args w) as [[proc|e] w1] eqn:Hspawn; [|spawn_never_raises Hspawn].
  destruct (spawn_keeps _ _ _ _ _ Hspawn Hn Hargs) as [Hn1 Hproc].
  unfold communicate_decoded in Hrun.
  pose proof (communicate_keeps _ daemon proc w1 n Hn1) as Hkeep.
  rewrite Hproc in Hkeep. specialize (Hkeep Hargs).
  destruct (communicate proc w1) as [[out err] w2].
  by injection Hrun as _ <-.
Qed.

Lemma make_unique_container_name_keeps w r w' n :
  make_unique_container_name w = (r, w') -> n ∈ names w -> n ∈ names w'.
Proof.
  destruct (run_to_completion_returns docker_ps w) as (p & w1 & Hrun).
  rewrite (make_unique_container_name_unfold _ _ _ Hrun).
  intros Hres Hn.
  assert (n ∈ names w1) by (by eapply run_to_completion_keeps).
  case_bool_decide; [by injection Hres as _ <-|].
  destruct (count_loop _ _ _); by injection Hres as _ <-.
Qed.

Lemma build_image_keeps w r w' n :
  build_image w = (r, w') -> n ∈ names w -> n ∈ names w'.
Proof.
  unfold build_image. intros Hres Hn.
  destruct (is_dir sandbox_path w); simpl in Hres;
    [|by injection Hres as _ <-].
  destruct (run_to_completion_returns docker_build w) as (p & w1 & Hrun).
  assert (n ∈ names w1) by (by eapply run_to_completion_keeps).
  unfold run_to_completion, bind in Hrun. unfold bind in Hres.
  destruct (spawn docker_build w) as [[proc|e] w2]; [|done].
  destruct (communicate_decoded proc w2) as [[p'|e] w3]; [|done].
  injection Hrun as -> ->.
  case_bool_decide; by injection Hres as _ <-.
Qed.

Lemma start_container_keeps self w r w' n :
  start_container self w = (r, w') -> n ∈ names w -> n ∈ names w'.
Proof.
  unfold start_container. intros Hres Hn.
  destruct (run_to_completion_returns (docker_run (container_name self)) w)
    as (p & w1 & Hrun).
  assert (n ∈ names w1) by (by eapply run_to_completion_keeps).
  unfold run_to_completion, bind in Hrun. unfold bind in Hres.
  destruct (spawn _ w) as [[proc|e] w2]; [|done].
  destruct (communicate_decoded proc w2) as [[p'|e] w3]; [|done].
  injection Hrun as -> ->.
  case_bool_decide; by injection Hres as _ <-.
Qed.

Lemma start_container_Return self w w' :
  start_container self w = (Return tt, w') ->
  container_name self ∈ names w'.
Proof.
  unfold start_container. intros Hres.
  destruct (run_to_completion_returns (docker_run (container_name self)) w)
    as (p & w1 & Hrun).
  pose proof (started_is_known _ daemon _ _ _ _ Hrun) as Hknown.
  unfold run_to_completion, bind in Hrun. unfold bind in Hres.
  destruct (spawn _ w) as [[proc|e] w2]; [|done].
  destruct (communicate_decoded proc w2) as [[p'|e] w3]; [|done].
  injection Hrun as -> ->.
  case_bool_decide as Hrc; [done|]. injection Hres as <-.
  apply Hknown. destruct (decide (returncode p = 0)); [done|]. by destruct Hrc.
Qed.

Lemma run_command_keeps self command timeout_seconds w r w' n :
  run_command self command timeout_seconds w = (r, w') ->
  n ∈ names w -> n ∈ names w'.
Proof.
  unfold run_command, bind. intros Hres Hn.
  destruct (spawn _ w) as [[proc|e] w1] eqn:Hspawn; [|spawn_never_raises Hspawn].
  destruct (spawn_keeps _ _ _ _ _ Hspawn Hn ltac:(done)) as [Hn1 Hproc].
  assert (Hargs : proc_args proc <> docker_rm n) by (by rewrite Hproc).
  pose proof (wait_for_keeps _ daemon proc timeout_seconds w1 n Hn1 Hargs) as Hkeep.
  destruct (wait_for_communicate proc timeout_seconds w1) as [[[out err]|] w2];
    injection Hres as _ <-; [done|].
  apply (wait_keeps _ daemon); [|done]. by apply (kill_keeps _ daemon).
Qed.

Lemma model_call_keeps' model conversation descriptions w r w' n :
  chat_completions_create model conversation descriptions w = (r, w') ->
  n ∈ names w -> n ∈ names w'.
Proof.
  intros Hres Hn.
  pose proof (model_call_keeps _ daemon model conversation descriptions w n Hn)
    as Hkeep.
  by rewrite Hres in Hkeep.
Qed.

Lemma cleanup_stop_keeps self w r w' n :
  cleanup_stop self w = (r, w') -> n ∈ names w -> n ∈ names w'.
Proof.
  unfold cleanup_stop, bind. intros Hres Hn.
  destruct (spawn _ w) as [[proc|e] w1] eqn:Hspawn; [|spawn_never_raises Hspawn].
  destruct (spawn_keeps _ _ _ _ _ Hspawn Hn ltac:(done)) as [Hn1 Hproc].
  injection Hres as _ <-. apply (communicate_keeps _ daemon); [done|].
  by rewrite Hproc.
Qed.

Lemma cleanup_rm_keeps self w r w' n :
  cleanup_rm self w = (r, w') -> n <> container_name self ->
  n ∈ names w -> n ∈ names w'.
Proof.
  unfold cleanup_rm, bind. intros Hres Hne Hn.
  assert (Hargs : docker_rm (container_name self) <> docker_rm n)
    by (intros [= ?]; done).
  destruct (spawn _ w) as [[proc|e] w1] eqn:Hspawn; [|spawn_never_raises Hspawn].
  destruct (spawn_keeps _ _ _ _ _ Hspawn Hn Hargs) as [Hn1 Hproc].
  injection Hres as _ <-. apply (communicate_keeps _ daemon); [done|].
  by rewrite Hproc.
Qed.


Lemma invariant_initial n w : invariant names (initial n w).
Proof.
  split; simpl; intros *.
  - intros [-> _]%lookup_replicate [?|?]; done.
  - intros _ [-> _]%lookup_replicate _ [?|?]; done.
  - intros [-> _]%lookup_replicate _ [?|?]; done.
  - intros _ [-> _]%lookup_replicate [?|[?|?]]; done.
  - intros [-> _]%lookup_replicate _ [?|[?|?]]; done.
  - intros [-> _]%lookup_replicate [[?|?]|[?|?]]; done.
Qed.

(** One task moves; what has to hold of its new point for the invariant to
    be kept. *)
Lemma invariant_move s i t l w' p sb :
  let t' := {| at_point := p; sandbox_of := sb |} in
  invariant names s -> tasks s !! i = Some t ->
  (forall j tj, j <> i -> tasks s !! j = Some tj -> live tj ->
     name_of tj ∈ names w') ->
  (live t' -> name_of t' ∈ names w') ->
  (named t' \/ live t' ->
     (exists k, name_of t' = candidate_name k) /\
     forall j tj, j <> i -> tasks s !! j = Some tj -> live tj ->
       name_of t' <> name_of tj) ->
  (l = false -> ~ holding t') ->
  (forall j tj, j <> i -> tasks s !! j = Some tj -> holding tj ->
     l = true /\ ~ holding t' /\ (live t' -> live t /\ name_of t = name_of t')) ->
  invariant names (move s i l w' p sb).
Proof.
  intros t' Hinv Hi Hkeep Hknown Hnew Hlock Hothers.
  assert (Hlookup : forall j tj,
    tasks (move s i l w' p sb) !! j = Some tj ->
    (j = i /\ tj = t') \/ (j <> i /\ tasks s !! j = Some tj)).
  { simpl. intros j tj [(-> & <- & _)|[? ?]]%list_lookup_insert_Some; auto. }
  split; simpl shared; simpl locked.
  - intros j tj [[-> ->]|[Hne Hj]]%Hlookup Hlive; [by apply Hknown|].
    by eapply Hkeep.
  - intros j1 j2 t1 t2 Hne [[-> ->]|[Hne1 Hj1]]%Hlookup
      [[-> ->]|[Hne2 Hj2]]%Hlookup Hl1 Hl2; [done| | |].
    + destruct Hnew as [_ Hnew]; [by right|]. by eapply Hnew.
    + destruct Hnew as [_ Hnew]; [by right|]. apply not_eq_sym. by eapply Hnew.
    + by eapply (inv_distinct _ _ Hinv j1 j2).
  - intros j1 j2 t1 t2 [[-> ->]|[Hne1 Hj1]]%Hlookup
      [[-> ->]|[Hne2 Hj2]]%Hlookup Hn1 Hl2.
    + destruct Hn1 as [Hn1|Hn1], Hl2 as [Hl2|Hl2]; simpl in *; congruence.
    + destruct Hnew as [_ Hnew]; [by left|]. by eapply Hnew.
    + destruct (Hothers j1 t1 Hne1 Hj1) as (_ & _ & Hnl); [by right|].
      destruct (Hnl Hl2) as [Hl <-]. by eapply (inv_fresh _ _ Hinv j1 i).
    + by eapply (inv_fresh _ _ Hinv j1 j2).
  - intros j tj -> [[-> ->]|[Hne Hj]]%Hlookup Hh; [by apply Hlock|].
    by destruct (Hothers j tj Hne Hj Hh) as [? _].
  - intros j1 j2 t1 t2 [[-> ->]|[Hne1 Hj1]]%Hlookup
      [[-> ->]|[Hne2 Hj2]]%Hlookup Hh1 Hh2; [done| | |].
    + by destruct (Hothers j2 t2 Hne2 Hj2 Hh2) as (_ & ? & _).
    + by destruct (Hothers j1 t1 Hne1 Hj1 Hh1) as (_ & ? & _).
    + by eapply (inv_holder _ _ Hinv j1 j2).
  - intros j tj [[-> ->]|[Hne Hj]]%Hlookup Hnl; [by apply Hnew|].
    by eapply (inv_candidate _ _ Hinv).
Qed.

Ltac points :=
  unfold holding, named, live, name_of in *; simpl in *;
  intuition (try congruence; try discriminate).

(** The task [i] holds the lock, so no other task does. *)
Lemma sole_holder s i t j tj (P : Prop) :
  invariant names s -> tasks s !! i = Some t -> holding t ->
  j <> i -> tasks s !! j = Some tj -> holding tj -> P.
Proof.
  intros Hinv Hi Hh Hne Hj Hhj. destruct Hne.
  by eapply (inv_holder _ _ Hinv j i).
Qed.

(** Another task holds the lock, so the lock is taken. *)
Lemma holder_locks s j tj :
  invariant names s -> tasks s !! j = Some tj -> holding tj -> locked s = true.
Proof.
  intros Hinv Hj Hh. destruct (locked s) eqn:Hl; [done|].
  by destruct (inv_unlocked _ _ Hinv j tj).
Qed.

Lemma invariant_step s s' : step s s' -> invariant names s -> invariant names s'.
Proof.
  intros Hstep Hinv.
  destruct Hstep as
    [s i t Hi Hat Hfree
    |s i t name w' Hi Hat Hrun
    |s i t e w' Hi Hat Hrun
    |s i t w' Hi Hat Hrun
    |s i t e w' Hi Hat Hrun
    |s i t w' Hi Hat Hrun
    |s i t e w' Hi Hat Hrun
    |s i t command timeout_seconds r w' Hi Hat Hrun
    |s i t model conversation descriptions r w' Hi Hat Hrun
    |s i t r w' Hi Hat Hrun
    |s i t r w' Hi Hat Hrun];
    apply (invariant_move s i t); try done.
  (* acquire *)
  - intros j tj _ Hj Hlive. by eapply (inv_known _ _ Hinv).
  - points.
  - points.
  - intros j tj _ Hj Hh. by destruct (inv_unlocked _ _ Hinv j tj).
  (* make_unique_container_name returns *)
  - intros j tj _ Hj Hlive.
    eapply make_unique_container_name_keeps; [done|]. by eapply (inv_known _ _ Hinv).
  - points.
  - intros _.
    destruct (make_unique_container_name_Return _ _ _ Hrun)
      as (p & Hps & Hrc & Hout & Hcand).
    split; [done|]. intros j tj _ Hj Hlive Heq. apply Hout.
    unfold name_of in Heq; simpl in Heq. rewrite Heq.
    eapply (listing_complete _ daemon); [done..|]. by eapply (inv_known _ _ Hinv).
  - intros j tj Hne Hj Hh.
    apply (sole_holder s i t j tj _ Hinv Hi ltac:(points) Hne Hj Hh).
  (* make_unique_container_name raises *)
  - intros j tj _ Hj Hlive.
    eapply make_unique_container_name_keeps; [done|]. by eapply (inv_known _ _ Hinv).
  - points.
  - points.
  - points.
  - intros j tj Hne Hj Hh.
    apply (sole_holder s i t j tj _ Hinv Hi ltac:(points) Hne Hj Hh).
  (* build_image returns *)
  - intros j tj _ Hj Hlive.
    eapply build_image_keeps; [done|]. by eapply (inv_known _ _ Hinv).
  - points.
  - intros _. split.
    + eapply (inv_candidate _ _ Hinv i t); [done|]. points.
    + intros j tj _ Hj Hlive. eapply (inv_fresh _ _ Hinv i j t tj); [done..|points|done].
  - intros j tj Hne Hj Hh.
    apply (sole_holder s i t j tj _ Hinv Hi ltac:(points) Hne Hj Hh).
  (* build_image raises *)
  - intros j tj _ Hj Hlive.
    eapply build_image_keeps; [done|]. by eapply (inv_known _ _ Hinv).
  - points.
  - points.
  - points.
  - intros j tj Hne Hj Hh.
    apply (sole_holder s i t j tj _ Hinv Hi ltac:(points) Hne Hj Hh).
  (* start_container returns *)
  - intros j tj _ Hj Hlive.
    eapply start_container_keeps; [done|]. by eapply (inv_known _ _ Hinv).
  - intros _. by eapply start_container_Return.
  - intros _. split.
    + eapply (inv_candidate _ _ Hinv i t); [done|]. points.
    + intros j tj _ Hj Hlive. eapply (inv_fresh _ _ Hinv i j t tj); [done..|points|done].
  - points.
  - intros j tj Hne Hj Hh.
    apply (sole_holder s i t j tj _ Hinv Hi ltac:(points) Hne Hj Hh).
  (* start_container raises *)
  - intros j tj _ Hj Hlive.
    eapply start_container_keeps; [done|]. by eapply (inv_known _ _ Hinv).
  - points.
  - points.
  - points.
  - intros j tj Hne Hj Hh.
    apply (sole_holder s i t j tj _ Hinv Hi ltac:(points) Hne Hj Hh).
  (* run_command *)
  - intros j tj _ Hj Hlive.
    eapply run_command_keeps; [done|]. by eapply (inv_known _ _ Hinv).
  - intros _. eapply run_command_keeps; [done|].
    eapply (inv_known _ _ Hinv i t); [done|]. points.
  - intros _. split.
    + eapply (inv_candidate _ _ Hinv i t); [done|]. points.
    + intros j tj Hne Hj Hlive.
      eapply (inv_distinct _ _ Hinv i j t tj); [done..|points|done].
  - points.
  - intros j tj Hne Hj Hh. split; [by eapply holder_locks|]. points.
  (* a request to the model service *)
  - intros j tj _ Hj Hlive.
    eapply model_call_keeps'; [done|]. by eapply (inv_known _ _ Hinv).
  - intros _. eapply model_call_keeps'; [done|].
    eapply (inv_known _ _ Hinv i t); [done|]. points.
  - intros _. split.
    + eapply (inv_candidate _ _ Hinv i t); [done|]. points.
    + intros j tj Hne Hj Hlive.
      eapply (inv_distinct _ _ Hinv i j t tj); [done..|points|done].
  - points.
  - intros j tj Hne Hj Hh. split; [by eapply holder_locks|]. points.
  (* cleanup: docker stop *)
  - intros j tj _ Hj Hlive.
    eapply cleanup_stop_keeps; [done|]. by eapply (inv_known _ _ Hinv).
  - intros _. eapply cleanup_stop_keeps; [done|].
    eapply (inv_known _ _ Hinv i t); [done|]. points.
  - intros _. split.
    + eapply (inv_candidate _ _ Hinv i t); [done|]. points.
    + intros j tj Hne Hj Hlive.
      eapply (inv_distinct _ _ Hinv i j t tj); [done..|points|done].
  - points.
  - intros j tj Hne Hj Hh. split; [by eapply holder_locks|]. points.
  (* cleanup: docker rm *)
  - intros j tj Hne Hj Hlive.
    eapply cleanup_rm_keeps; [done| |by eapply (inv_known _ _ Hinv)].
    eapply (inv_distinct _ _ Hinv j i tj t); [done..|points].
  - points.
  - points.
  - points.
  - intros j tj Hne Hj Hh. split; [by eapply holder_locks|]. points.
Qed.

Lemma invariant_reachable n w s :
  rtc step (initial n w) s -> invariant names s.
Proof.
  intros Hreach.
  refine (rtc_ind_r (R := step) (invariant names) (initial n w)
            (invariant_initial n w) _ s Hreach).
  intros s1 s2 _ Hstep Hinv. by eapply invariant_step.
Qed.

End sandbox_concurrent.

(** ** The fan-out of [evaluate_agent_multiple_tasks] *)

Section fanout.
Import Evaluate.

Lemma evaluating_insert (l : list job) i old new :
  l !! i = Some old ->
  Z.of_nat (length (List.filter is_evaluating (<[i := new]> l)))
  = Z.of_nat (length (List.filter is_evaluating l))
    - (if is_evaluating old then 1 else 0)
    + (if is_evaluating new then 1 else 0).
Proof.
  revert i. induction l as [|x l IH]; intros [|i]; simpl; try done.
  - intros [= ->]. destruct (is_evaluating old), (is_evaluating new); simpl; lia.
  - intros Hi. specialize (IH i Hi).
    destruct (is_evaluating x); simpl; lia.
Qed.

Lemma evaluating_replicate_Queued n :
  List.filter is_evaluating (replicate n Queued) = [].
Proof. induction n as [|n IH]; simpl; done. Qed.

(** The permits left and the orchestrators running add up to the cap. *)
Lemma fan_step_permits f f' :
  fan_step f f' ->
  value f' + evaluating f' = value f + evaluating f
  /\ (0 <= value f -> 0 <= value f').
Proof.
  intros [f0 i Hi Hpos|f0 i Hi]; unfold evaluating; simpl;
    rewrite (evaluating_insert _ _ _ _ Hi); simpl; lia.
Qed.

Lemma fan_reachable_permits f0 f :
  rtc fan_step f0 f -> 0 <= value f0 ->
  value f + evaluating f = value f0 + evaluating f0 /\ 0 <= value f.
Proof.
  intros Hreach H0.
  refine (rtc_ind_r (R := fan_step)
            (fun f => value f + evaluating f = value f0 + evaluating f0
                      /\ 0 <= value f) f0 _ _ f Hreach); [done|].
  intros f1 f2 _ Hstep [Hsum Hpos].
  destruct (fan_step_permits _ _ Hstep) as [Hsum' Hpos']. split; [lia|auto].
Qed.

Lemma fanout_bounded n kw f0 f :
  evaluate_agent_multiple_tasks n kw = Return f0 ->
  rtc fan_step f0 f ->
  evaluating f <= default default_max_run_in_parallel (max_run_in_parallel kw).
Proof.
  unfold evaluate_agent_multiple_tasks, Semaphore.
  set (cap := default _ _).
  destruct (Z.ltb_spec cap 0) as [?|Hcap]; [done|].
  intros [= <-] Hreach.
  destruct (fan_reachable_permits _ _ Hreach) as [Hsum Hpos]; [done|].
  unfold evaluating at 2 in Hsum. simpl in Hsum.
  rewrite evaluating_replicate_Queued in Hsum. simpl in Hsum. lia.
Qed.

End fanout.


(** ** The simulated world meets what is asked of a container runtime *)

Section sim_daemon.
Variable chat : list message -> ChatCompletionMessage.

Lemma decode_encode s : Sim.decode_ascii (Sim.encode s) = s.
Proof.
  unfold Sim.decode_ascii, Sim.encode.
  rewrite <- (of_chars_chars s) at 2. f_equal.
  induction (Py.chars s) as [|c l IH]; [done|].
  by rewrite !fmap_cons, ascii_of_byte_of_ascii, IH.
Qed.

Lemma split_lf_line line rest :
  Sim.newline_free line ->
  Sim.split_lf (line +:+ String Sim.LF rest) = line :: Sim.split_lf rest.
Proof.
  unfold Sim.newline_free.
  induction line as [|c line IH]; simpl; intros Hfree.
  - change (Sim.split_lf (String Sim.LF rest) = EmptyString :: Sim.split_lf rest).
    done.
  - apply not_elem_of_cons in Hfree as [Hc Hline].
    change (Sim.split_lf (String c (line +:+ String Sim.LF rest))
            = String c line :: Sim.split_lf rest).
    simpl. rewrite bool_decide_false by (intros ->; done).
    by rewrite (IH Hline).
Qed.

Lemma split_join_lf lines :
  Forall Sim.newline_free lines -> Sim.split_lf (Sim.join_lf lines) = lines.
Proof.
  induction 1 as [|line lines Hline _ IH]; simpl; [done|].
  by rewrite (split_lf_line _ _ Hline), IH.
Qed.

Lemma parse_Rm args name : Sim.parse args = Sim.Rm name -> args = docker_rm name.
Proof.
  unfold Sim.parse. case_bool_decide; [done|].
  destruct args as [|a1 [|a2 [|a3 [|a4 [|a5 [|a6 [|a7 rest]]]]]]]; try done;
    repeat case_bool_decide; try done; congruence.
Qed.

Lemma parse_ps : Sim.parse docker_ps = Sim.Ps.
Proof. reflexivity. Qed.

Lemma parse_run name : Sim.parse (docker_run name) = Sim.Run name.
Proof.
  unfold Sim.parse. rewrite bool_decide_false by done.
  simpl. by rewrite bool_decide_true.
Qed.

Lemma sim_communicate_keeps proc w n :
  n ∈ Sim.names w -> proc_args proc <> docker_rm n ->
  n ∈ Sim.names (Sim.sim_communicate proc w).2.
Proof.
  unfold Sim.names, Sim.sim_communicate. intros Hn Hargs.
  destruct (Sim.parse (proc_args proc)) as [|name|name|name script|] eqn:Hparse;
    simpl; try done.
  - by destruct (Sim.daemon_up w).
  - case_bool_decide; simpl; [|done].
    rewrite filter_cons. case_decide; [|done]. by apply elem_of_cons; right.
  - apply parse_Rm in Hparse.
    apply list_elem_of_filter in Hn as [Hfree Hn].
    apply list_elem_of_filter. split; [done|].
    apply list_elem_of_filter. split; [|done]. intros ->. by apply Hargs.
Qed.

Lemma sim_daemon :
  docker_daemon (lib := Sim.lib) (rt := Sim.runtime chat) Sim.names.
Proof.
  split.
  - intros w p w' n Hrun Hrc Hn.
    unfold run_to_completion, bind, spawn, communicate_decoded in Hrun.
    simpl in Hrun. unfold Sim.sim_communicate in Hrun. simpl in Hrun.
    destruct (Sim.daemon_up w); injection Hrun as <- <-.
    + simpl. rewrite decode_encode, split_join_lf; [done|].
      apply Forall_forall. by intros x [? _]%list_elem_of_filter.
    + exfalso. revert Hrc. unfold Sim.sim_returncode. simpl.
      by rewrite bool_decide_true.
  - intros n w p w' Hrun Hrc.
    unfold run_to_completion, bind, spawn, communicate_decoded in Hrun.
    simpl in Hrun. unfold Sim.sim_communicate in Hrun. simpl in Hrun.
    rewrite parse_run in Hrun.
    case_bool_decide as Hok; injection Hrun as <- <-.
    + unfold Sim.names. simpl. apply list_elem_of_filter.
      split; [apply Hok|]. by apply elem_of_cons; left.
    + exfalso. revert Hrc. unfold Sim.sim_returncode. simpl.
      by rewrite bool_decide_true.
  - by intros args w n Hn _.
  - apply sim_communicate_keeps.
  - intros proc t w n Hn Hargs. simpl. unfold Sim.sim_wait_for.
    pose proof (sim_communicate_keeps proc w n Hn Hargs) as Hkeep.
    destruct (Sim.parse (proc_args proc)); try case_bool_decide;
      destruct (Sim.sim_communicate proc w); done.
  - by intros proc w n Hn _.
  - by intros proc w n Hn _.
  - by intros model conversation descriptions w n Hn.
Qed.

End sim_daemon.

(** * The claims *)


(** C6, as stated, fails at the bound 0: [text[-0:]] is the whole text, so
    truncating ["a"] gives the marker followed by ["a"], which is longer
    than the bound plus the marker and is truncated again to something
    else. *)
Lemma C6_counterexample :
  let self := sim_bash 0 in
  BashTool._truncate self "a" = "[TRUNCATED]a"%string
  /\ BashTool._truncate self (BashTool._truncate self "a")
     <> BashTool._truncate self "a"
  /\ ~ (Py.len (BashTool._truncate self "a")
        <= BashTool.max_output_length self + Py.len BashTool.TRUNCATED).
Proof. split_and!; [reflexivity|discriminate|vm_compute; congruence]. Qed.

(** C6, amended: for every string and every bound of at least 1,
    [BashTool._truncate] applied twice gives what it gives applied once, and
    its result is no longer than the bound plus the length of the marker. *)
Theorem C6_truncate_idempotent_bounded (self : BashTool.t) (text : string) :
  1 <= BashTool.max_output_length self ->
  BashTool._truncate self (BashTool._truncate self text)
  = BashTool._truncate self text
  /\ Py.len (BashTool._truncate self text)
     <= BashTool.max_output_length self + Py.len BashTool.TRUNCATED.
Proof.
  intros Hbound. split.
  - by apply truncate_idempotent_pos.
  - by apply truncate_length_pos.
Qed.

Lemma C6_witness :
  1 <= BashTool.max_output_length (sim_bash 5)
  /\ BashTool._truncate (sim_bash 5) "abcdefghij" = "ab[TRUNCATED]hij"%string
  /\ BashTool._truncate (sim_bash 5)
       (BashTool._truncate (sim_bash 5) "abcdefghij")
     = BashTool._truncate (sim_bash 5) "abcdefghij"
  /\ Py.len (BashTool._truncate (sim_bash 5) "abcdefghij")
     <= BashTool.max_output_length (sim_bash 5) + Py.len BashTool.TRUNCATED.
Proof.
  split; [simpl; lia|]. split; [reflexivity|].
  apply (C6_truncate_idempotent_bounded (sim_bash 5) "abcdefghij").
  simpl; lia.
Defined.

Section claims_tool.
Context {lib : PyLib} {rt : Runtime}.



(** C10: when the agent has a system message, the conversation [Agent.run]
    works on starts with the user message carrying the prompt, followed by
    the system message; this holds of the seed and of the conversation at
    the end of the run. *)
Theorem C10_user_prompt_before_system_message
    (self : Agent.t) (prompt text : string) (w : World) :
  Agent.system_message self = Some text ->
  Agent.seed self prompt = [Dict Ruser prompt None; Dict Rsystem text None]
  /\ exists rest,
       Agent.final_conversation (Agent.run self prompt w)
       = Dict Ruser prompt None :: Dict Rsystem text None :: rest.
Proof.
  intros Hsys.
  assert (Hseed : Agent.seed self prompt
                  = [Dict Ruser prompt None; Dict Rsystem text None]).
  { unfold Agent.seed. by rewrite Hsys. }
  split; [done|].
  destruct (run_extends_seed self prompt w) as [rest Hrest].
  exists rest. by rewrite Hrest, Hseed.
Qed.

End claims_tool.




Lemma C10_witness :
  exists rest,
    Agent.final_conversation
      (Agent.run (lib := Sim.lib) (sim_agent Sim.chatty 2 (Some "Be brief."%string))
         "Fix the bug." Sim.fresh)
    = Dict Ruser "Fix the bug." None :: Dict Rsystem "Be brief." None :: rest.
Proof.
  apply (C10_user_prompt_before_system_message (lib := Sim.lib)
           (sim_agent Sim.chatty 2 (Some "Be brief."%string))
           "Fix the bug." "Be brief." Sim.fresh).
  reflexivity.
Defined.

(** C1: the code at an input where the claim fails.  The model service asks,
    in one turn, for [finish] and then for [run_bash_command].  The loop
    leaves at the [finish] call: the run returns through [if finished], the
    shell command is never run, and the conversation ends with the response
    itself, with no tool message for [call_2]. *)
Theorem C1_finish_stops_the_turn :
  let self := sim_agent Sim.finish_then_bash 15 Agent.default_system_message in
  let o := Agent.run (lib := Sim.lib) self "Fix the bug." Sim.fresh in
  Agent.returned o = Return Agent.Finished
  /\ Agent.final_conversation o
     = Agent.seed self "Fix the bug."
       ++ [Response (Sim.finish_then_bash (Agent.seed self "Fix the bug."))]
  /\ Tool.invocations (Agent.final_env o) = []
  /\ Tool.world (Agent.final_env o) = Sim.fresh
  /\ forall text, Dict Rtool text (Some "call_2"%string) ∉ Agent.final_conversation o.
Proof.
  split_and!; [reflexivity..|].
  intros text Hin. vm_compute in Hin.
  repeat (apply elem_of_cons in Hin as [Hin|Hin]; [discriminate Hin|]).
  by apply not_elem_of_nil in Hin.
Qed.


Example bash_then_finish_serves_the_command :
  let self := sim_agent bash_then_finish 15 Agent.default_system_message in
  let o := Agent.run (lib := Sim.lib) self "Fix the bug." Sim.fresh in
  Agent.returned o = Return Agent.Finished
  /\ Tool.invocations (Agent.final_env o)
     = [{| inv_tool := "run_bash_command";
           inv_kwargs := [("command"%string, JStr "echo hi")] |}]
  /\ exists text,
       Agent.final_conversation o
       = Agent.seed self "Fix the bug."
         ++ [Response (bash_then_finish []);
             Dict Rtool text (Some "call_1"%string)].
Proof. split_and!; [reflexivity..|]. eexists. reflexivity. Qed.

(** C2, as stated, fails for an agent with a system message, which is the
    default: the seed then has two messages, and one steering turn ends with
    five messages, not with 1 + 3 * 1. *)
Lemma C2_counterexample :
  let self := sim_agent Sim.chatty 1 Agent.default_system_message in
  let o := Agent.run (lib := Sim.lib) self "Fix the bug." Sim.fresh in
  always_plain_text self
  /\ Agent.returned o = Return Agent.TurnsExhausted
  /\ Z.of_nat (length (Agent.final_conversation o)) = 5
  /\ Z.of_nat (length (Agent.final_conversation o))
     <> 1 + 3 * Agent.max_turns self.
Proof.
  split_and!; [|reflexivity|reflexivity|vm_compute; congruence].
  intros conversation w. split; [reflexivity|discriminate].
Qed.

Section claims_agent.
Context {lib : PyLib} {rt : Runtime}.

(** C2, amended: if the model service answers every turn with text and no
    tool calls, [Agent.run] leaves through the end of the loop, raises
    nothing, invokes no tool, and ends with a conversation of
    [s + 3 * max_turns] messages, where the seed [s] is 2 with a system
    message and 1 without. *)
Theorem C2_plain_text_run_length (self : Agent.t) (prompt : string) (w : World) :
  always_plain_text self ->
  0 <= Agent.max_turns self ->
  let o := Agent.run self prompt w in
  Agent.returned o = Return Agent.TurnsExhausted
  /\ Z.of_nat (length (Agent.final_conversation o))
     = (match Agent.system_message self with Some _ => 2 | None => 1 end)
       + 3 * Agent.max_turns self
  /\ Tool.invocations (Agent.final_env o) = [].
Proof.
  intros Hplain Hturns o.
  destruct (turns_loop_plain_text self (Z.to_nat (Agent.max_turns self))
              (Agent.seed self prompt)
              {| Tool.world := w; Tool.invocations := [] |} Hplain)
    as (Hret & Hlen & Hinv).
  split_and!; [done| |done].
  unfold o, Agent.run. rewrite Hlen, length_seed.
  destruct (Agent.system_message self); lia.
Qed.

End claims_agent.

Lemma C2_witness :
  let self := sim_agent Sim.chatty 2 None in
  let o := Agent.run (lib := Sim.lib) self "Fix the bug." Sim.fresh in
  Agent.returned o = Return Agent.TurnsExhausted
  /\ Z.of_nat (length (Agent.final_conversation o)) = 1 + 3 * 2
  /\ Tool.invocations (Agent.final_env o) = [].
Proof.
  apply (C2_plain_text_run_length (lib := Sim.lib) (sim_agent Sim.chatty 2 None)
           "Fix the bug." Sim.fresh).
  - intros conversation w. split; [reflexivity|discriminate].
  - simpl. lia.
Defined.

Section claims_sandbox.
Context {lib : PyLib} {rt : Runtime}.


(** C8: given what the listing command printed and how it exited.  With
    exit status 0, [make_unique_container_name] returns
    [bash-sandbox-instance-i] for the least [i] whose name is not a line of
    the listing.  With any other status it raises an exception carrying the
    command's error output, and so does the body of [__aenter__], leaving
    the world as the listing command left it: neither the build nor the
    start command is issued. *)
Theorem C8_lowest_free_name_or_error
    (self : DockerSandbox) (w w' : World) (p : CompletedProcess) :
  run_to_completion docker_ps w = (Return p, w') ->
  (returncode p = 0 ->
     exists i,
       make_unique_container_name w = (Return (candidate_name i), w')
       /\ (candidate_name i ∉ splitlines (stdout p))
       /\ forall j, (j < i)%nat -> candidate_name j ∈ splitlines (stdout p))
  /\ (returncode p <> 0 ->
        let e := Exception ("Error getting existing containers: " +:+ stderr p) in
        make_unique_container_name w = (Raise e, w')
        /\ __aenter__ self w = (Raise e, w')).
Proof.
  intros Hrun. split.
  - intros Hrc. by apply make_unique_container_name_ok.
  - intros Hrc. split.
    + by apply make_unique_container_name_raises.
    + by apply aenter_listing_fails.
Qed.

End claims_sandbox.



Example sim_two_known_gives_2 :
  (make_unique_container_name (lib := Sim.lib) (rt := Sim.runtime Sim.chatty)
     sim_two_known).1
  = Return "bash-sandbox-instance-2"%string.
Proof. reflexivity. Qed.

Lemma C8_witness :
  (exists i w',
     make_unique_container_name (lib := Sim.lib) (rt := Sim.runtime Sim.chatty)
       sim_two_known
     = (Return (candidate_name i), w')
     /\ (candidate_name i ∉ [candidate_name 1; candidate_name 0]))
  /\ (exists w',
        __aenter__ (lib := Sim.lib) (rt := Sim.runtime Sim.chatty)
          new_sandbox Sim.daemon_down
        = (Raise (Exception
             "Error getting existing containers: Cannot connect to the Docker daemon."),
           w')).
Proof.
  split.
  - destruct (C8_lowest_free_name_or_error (lib := Sim.lib)
                (rt := Sim.runtime Sim.chatty) new_sandbox sim_two_known
                _ _ eq_refl) as [Hok _].
    destruct (Hok eq_refl) as (i & Hname & Hout & _).
    exists i. eexists. split; [exact Hname|exact Hout].
  - eexists.
    destruct (C8_lowest_free_name_or_error (lib := Sim.lib)
                (rt := Sim.runtime Sim.chatty) new_sandbox Sim.daemon_down
                _ _ eq_refl) as [_ Hfail].
    destruct Hfail as [_ Hbody]; [vm_compute; discriminate|].
    exact Hbody.
Defined.

(** C9, as stated, fails: without a [max_run_in_parallel] argument the
    semaphore starts at 64, not at 256. *)
Lemma C9_counterexample :
  Evaluate.evaluate_agent_multiple_tasks 1 Evaluate.no_keywords
  = Return {| Evaluate.value := 64; Evaluate.jobs := [Evaluate.Queued] |}
  /\ Evaluate.evaluate_agent_multiple_tasks 1 Evaluate.no_keywords
     <> Return {| Evaluate.value := 256; Evaluate.jobs := [Evaluate.Queued] |}.
Proof. split; [reflexivity|discriminate]. Qed.

(** C9, amended: the number of orchestrators running at once never exceeds
    the semaphore's initial value, which is the [max_run_in_parallel]
    argument; that argument defaults to 64, and 256 is what main.py passes. *)
Theorem C9_fanout_cap_default_64
    (n : nat) (kw : Evaluate.keywords) (f0 f : Evaluate.fanout) :
  Evaluate.evaluate_agent_multiple_tasks n kw = Return f0 ->
  rtc Evaluate.fan_step f0 f ->
  let cap := default Evaluate.default_max_run_in_parallel
               (Evaluate.max_run_in_parallel kw) in
  Evaluate.value f0 = cap
  /\ Evaluate.evaluating f <= cap
  /\ (kw = Evaluate.no_keywords -> cap = 64)
  /\ (kw = Evaluate.main_keywords -> cap = 256).
Proof.
  intros Hstart Hreach cap. split_and!.
  - revert Hstart. unfold Evaluate.evaluate_agent_multiple_tasks, Evaluate.Semaphore.
    fold cap. destruct (cap <? 0); [done|]. by intros [= <-].
  - by eapply fanout_bounded.
  - by intros ->.
  - by intros ->.
Qed.

Lemma C9_witness :
  let f0 := {| Evaluate.value := 64;
               Evaluate.jobs := [Evaluate.Queued; Evaluate.Queued] |} in
  let f := {| Evaluate.value := 63;
              Evaluate.jobs := [Evaluate.Evaluating; Evaluate.Queued] |} in
  Evaluate.value f0 = 64
  /\ Evaluate.evaluating f <= 64
  /\ (Evaluate.no_keywords = Evaluate.no_keywords -> 64 = 64)
  /\ (Evaluate.no_keywords = Evaluate.main_keywords -> 64 = 256).
Proof.
  apply (C9_fanout_cap_default_64 2 Evaluate.no_keywords).
  - reflexivity.
  - eapply rtc_l; [|apply rtc_refl].
    apply (Evaluate.fan_enter
             {| Evaluate.value := 64;
                Evaluate.jobs := [Evaluate.Queued; Evaluate.Queued] |} 0%nat);
      [reflexivity|simpl; lia].
Defined.

Section claims_concurrent.
Context {lib : PyLib} {rt : Runtime}.


End claims_concurrent.

(** ** A reachable state with two live sandboxes *)

Section open_alone.
Context {lib : PyLib} {rt : Runtime}.


Lemma lookup_move s i l w p sb t :
  tasks s !! i = Some t ->
  tasks (move s i l w p sb) !! i = Some {| at_point := p; sandbox_of := sb |}.
Proof.
  intros Hi. simpl. apply list_lookup_insert_eq. by eapply lookup_lt_Some.
Qed.

Lemma open_alone_reachable i s t :
  tasks s !! i = Some t -> at_point t = Created ->
  sandbox_of t = new_sandbox -> locked s = false ->
  rtc step s (open_alone i s).
Proof.
  intros Hi Hat Hsb Hfree. unfold open_alone.
  set (s1 := move s i true (shared s) Reserving new_sandbox).
  assert (H1 : step s s1).
  { unfold s1. rewrite <- Hsb. by apply step_acquire. }
  assert (Hi1 : tasks s1 !! i
                = Some {| at_point := Reserving; sandbox_of := new_sandbox |})
    by (by eapply lookup_move).
  destruct (make_unique_container_name (shared s1)) as [[name|e] w2] eqn:Hname;
    [|by apply rtc_once].
  set (sb := {| container_name := name |}).
  set (s2 := move s1 i true w2 Building sb).
  assert (H2 : step s1 s2) by (by eapply step_name).
  assert (Hi2 : tasks s2 !! i = Some {| at_point := Building; sandbox_of := sb |})
    by (by eapply lookup_move).
  destruct (build_image w2) as [[[]|e] w3] eqn:Hbuild;
    [|by eapply rtc_l; [|apply rtc_once]].
  set (s3 := move s2 i true w3 Starting sb).
  assert (H3 : step s2 s3).
  { by apply (step_build s2 i {| at_point := Building; sandbox_of := sb |}). }
  assert (Hi3 : tasks s3 !! i = Some {| at_point := Starting; sandbox_of := sb |})
    by (by eapply lookup_move).
  destruct (start_container sb w3) as [[[]|e] w4] eqn:Hstart.
  - eapply rtc_l; [exact H1|]. eapply rtc_l; [exact H2|].
    eapply rtc_l; [exact H3|]. apply rtc_once.
    by apply (step_start s3 i {| at_point := Starting; sandbox_of := sb |}).
  - eapply rtc_l; [exact H1|]. eapply rtc_l; [exact H2|]. by apply rtc_once.
Qed.

End open_alone.

Section sim_two_tasks.
#[local] Existing Instance Sim.lib.
#[local] Existing Instance chatty_rt.


Lemma sim_both_live_reachable : rtc step (initial 2 Sim.fresh) sim_both_live.
Proof.
  etrans.
  - by apply (open_alone_reachable 0 _
                {| at_point := Created; sandbox_of := new_sandbox |}).
  - by apply (open_alone_reachable 1 _
                {| at_point := Created; sandbox_of := new_sandbox |}).
Qed.

Example sim_both_live_tasks :
  tasks sim_both_live
  = [{| at_point := Entered;
        sandbox_of := {| container_name := "bash-sandbox-instance-0" |} |};
     {| at_point := Entered;
        sandbox_of := {| container_name := "bash-sandbox-instance-1" |} |}].
Proof. reflexivity. Qed.


End sim_two_tasks.

(** * Further properties of the code *)

(** ** [Agent.__post_init__] and the calls of one turn *)

Section more_agent.
Context {lib : PyLib} {rt : Runtime}.
Implicit Types (self : Agent.t) (conversation : list message) (s : Tool.Env).

(** An agent always offers a Finish tool: the constructor keeps the tools it
    is given, in order, and appends one [FinishTool] exactly when none of
    them is one. *)
Theorem post_init_offers_finish
    (model : string) (tools : list Tool.t) (max_turns : Z)
    (system_message : option string) :
  let self := Agent.new model tools max_turns system_message in
  existsb Tool.is_FinishTool (Agent.tools self) = true
  /\ Agent.tools self
     = (if existsb Tool.is_FinishTool tools then tools
        else tools ++ [FinishTool.new])
  /\ tools `prefix_of` Agent.tools self
  /\ Agent.max_turns self = max_turns
  /\ Agent.system_message self = system_message.
Proof.
  unfold Agent.new, Agent.__post_init__. simpl.
  destruct (existsb Tool.is_FinishTool tools) eqn:Hany; simpl.
  - split_and!; done.
  - split_and!; try done; [|by apply prefix_app_r].
    rewrite existsb_app. simpl. by rewrite orb_true_r.
Qed.

Lemma find_tool_app_finish tools tool_call :
  tc_function_name tool_call = "finish"%string ->
  (forall tool, tool ∈ tools ->
     fn_name (Tool.description_for_openai_api tool) <> "finish"%string) ->
  List.find
    (fun tool => bool_decide
       (fn_name (Tool.description_for_openai_api tool) = tc_function_name tool_call))
    (tools ++ [FinishTool.new])
  = Some FinishTool.new.
Proof.
  intros Hname Hnone. induction tools as [|tool tools IH]; simpl.
  - by rewrite Hname, bool_decide_true.
  - rewrite bool_decide_false.
    + apply IH. intros t Ht. apply Hnone. by right.
    + rewrite Hname. apply Hnone. by left.
Qed.

(** With tools none of which is a [FinishTool] or is named [finish], a call
    of [finish] ends the turn where it stands: nothing is appended, nothing
    is invoked, and the calls after it are not looked at. *)
Theorem finish_call_ends_the_turn
    (model : string) (tools : list Tool.t) (max_turns : Z)
    (system_message : option string)
    (tool_call : ToolCall) (rest : list ToolCall) conversation s :
  tc_function_name tool_call = "finish"%string ->
  (forall tool, tool ∈ tools ->
     Tool.is_FinishTool tool = false
     /\ fn_name (Tool.description_for_openai_api tool) <> "finish"%string) ->
  Agent.tool_calls_loop (Agent.new model tools max_turns system_message)
    (tool_call :: rest) conversation s
  = {| Agent.returned := Return true;
       Agent.final_conversation := conversation;
       Agent.final_env := s |}.
Proof.
  intros Hname Htools.
  assert (Hany : existsb Tool.is_FinishTool tools = false).
  { apply not_true_is_false. intros (tool & Hin & Hfin)%existsb_exists.
    apply list_elem_of_In, Htools in Hin as [Hnot _]. congruence. }
  apply tool_calls_loop_break with (tool := FinishTool.new); [|done].
  unfold Agent.find_tool, Agent.new, Agent.__post_init__. simpl.
  rewrite Hany. simpl. apply find_tool_app_finish; [done|].
  intros tool Hin. by apply Htools.
Qed.

(** What one turn's loop over the tool calls does, whatever the calls: it
    serves a first part of them, appends exactly one tool message per served
    call, in order and carrying the call's id, and serves no call that
    resolves to a Finish tool.  It ends with [finished] unset only when every
    call was served, with [finished] set only at a call resolving to a Finish
    tool, and it raises only at a call naming no tool ([AssertionError]) or
    at a call whose [Tool.call] raised. *)
Theorem tool_calls_loop_serves_a_prefix self (calls : list ToolCall)
    conversation s :
  let o := Agent.tool_calls_loop self calls conversation s in
  exists served rest msgs,
    calls = served ++ rest
    /\ Agent.final_conversation o = conversation ++ msgs
    /\ Forall2 tool_message_for msgs served
    /\ Forall (fun tool_call => ~ resolves_to_finish self tool_call) served
    /\ match Agent.returned o with
       | Return false => rest = []
       | Return true =>
           exists tool_call rest',
             rest = tool_call :: rest' /\ resolves_to_finish self tool_call
       | Raise e =>
           exists tool_call rest',
             rest = tool_call :: rest'
             /\ ((Agent.find_tool self tool_call = None /\ e = AssertionError)
                 \/ exists tool s1 s2,
                      Agent.find_tool self tool_call = Some tool
                      /\ Tool.is_FinishTool tool = false
                      /\ Tool.call tool (tc_function_arguments tool_call) s1
                         = (Raise e, s2))
       end.
Proof.
  revert conversation s.
  induction calls as [|tool_call calls IH]; intros conversation s; simpl.
  { exists [], [], []. split_and!; rewrite ?app_nil_r; by constructor. }
  destruct (Agent.find_tool self tool_call) as [tool|] eqn:Hfind.
  2:{ exists [], (tool_call :: calls), []. simpl.
      split_and!; rewrite ?app_nil_r; try done; try by constructor.
      exists tool_call, calls. split; [done|]. by left. }
  destruct (Tool.is_FinishTool tool) eqn:Hfin.
  { exists [], (tool_call :: calls), []. simpl.
    split_and!; rewrite ?app_nil_r; try done; try by constructor.
    exists tool_call, calls. split; [done|]. by exists tool. }
  destruct (Tool.call tool (tc_function_arguments tool_call) s)
    as [[returned|e] s'] eqn:Hcall.
  2:{ exists [], (tool_call :: calls), []. simpl.
      split_and!; rewrite ?app_nil_r; try done; try by constructor.
      exists tool_call, calls. split; [done|]. right. by exists tool, s, s'. }
  destruct (IH (conversation ++
                  [Dict Rtool (Agent.dumps_returned returned)
                     (Some (tc_id tool_call))]) s')
    as (served & rest & msgs & Hcalls & Hconv & Hmsgs & Hnofin & Hend).
  exists (tool_call :: served), rest,
    (Dict Rtool (Agent.dumps_returned returned) (Some (tc_id tool_call)) :: msgs).
  split_and!.
  - by rewrite Hcalls.
  - by rewrite Hconv, <- (assoc_L (++)).
  - constructor; [by eexists|done].
  - constructor; [|done]. intros (tool' & Hfind' & Hfin'). congruence.
  - done.
Qed.

End more_agent.

(** ** The turns of [Agent.run] *)

Section more_turns.
Context {lib : PyLib} {rt : Runtime}.
Implicit Types (self : Agent.t) (conversation : list message) (s : Tool.Env).

Lemma model_calls_app conversation (more : list message) :
  model_calls (conversation ++ more)
  = (model_calls conversation + model_calls more)%nat.
Proof. unfold model_calls. by rewrite List.filter_app, length_app. Qed.

Lemma tool_calls_loop_model_calls self calls conversation s :
  model_calls
    (Agent.final_conversation (Agent.tool_calls_loop self calls conversation s))
  = model_calls conversation.
Proof.
  revert conversation s.
  induction calls as [|tool_call calls IH]; intros conversation s; simpl; [done|].
  destruct (Agent.find_tool self tool_call) as [tool|]; [|done].
  destruct (Tool.is_FinishTool tool); [done|].
  destruct (Tool.call tool _ s) as [[returned|e] s']; [|done].
  rewrite IH, model_calls_app. unfold model_calls. simpl. lia.
Qed.

Lemma turns_loop_model_calls self n conversation s :
  (model_calls (Agent.final_conversation (Agent.turns_loop self n conversation s))
   <= model_calls conversation + n)%nat
  /\ (Agent.returned (Agent.turns_loop self n conversation s)
      = Return Agent.TurnsExhausted ->
      model_calls (Agent.final_conversation (Agent.turns_loop self n conversation s))
      = (model_calls conversation + n)%nat)
  /\ (Agent.returned (Agent.turns_loop self n conversation s)
      <> Return Agent.TurnsExhausted ->
      (model_calls conversation
       < model_calls
           (Agent.final_conversation (Agent.turns_loop self n conversation s)))%nat).
Proof.
  revert conversation s.
  induction n as [|n IH]; intros conversation s; simpl.
  { split_and!; [lia|intros _; lia|done]. }
  destruct (Agent._chatbot_response self conversation (Tool.world s))
    as [response w'].
  assert (Hone : model_calls (conversation ++ [Response response])
                 = S (model_calls conversation)).
  { rewrite model_calls_app. unfold model_calls. simpl. lia. }
  destruct (tool_calls response) as [calls|].
  - pose proof (tool_calls_loop_model_calls self calls
      (conversation ++ [Response response])
      {| Tool.world := w'; Tool.invocations := Tool.invocations s |}) as Hcalls.
    rewrite Hone in Hcalls.
    destruct (Agent.tool_calls_loop self calls _ _) as [[[|]|e] conv' s'];
      simpl in *.
    + split_and!; [lia|done|intros _; lia].
    + destruct (IH conv' s') as (Hle & Hex & Hne). rewrite Hcalls in *.
      split_and!; [lia|intros H; rewrite (Hex H); lia
                  |intros H; specialize (Hne H); lia].
    + split_and!; [lia|done|intros _; lia].
  - destruct (content response) as [text|]; simpl.
    + set (steered := (conversation ++ [Response response]) ++
                      [Dict Rassistant text None; Dict Ruser Agent.steering None]).
      assert (Hsteered : model_calls steered = S (model_calls conversation)).
      { unfold steered. rewrite model_calls_app, Hone.
        unfold model_calls. simpl. lia. }
      destruct (IH steered
                   {| Tool.world := w'; Tool.invocations := Tool.invocations s |})
        as (Hle & Hex & Hne).
      rewrite Hsteered in *.
      split_and!; [lia|intros H; rewrite (Hex H); lia
                  |intros H; specialize (Hne H); lia].
    + split_and!; [lia|done|intros _; lia].
Qed.

(** [Agent.run] sends at most [max_turns] requests to the model service
    (none when [max_turns] is zero or negative), exactly that many when it
    ends by using up its turns, and at least one when it ends in any other
    way. *)
Theorem run_asks_at_most_max_turns self (prompt : string) (w : World) :
  let o := Agent.run self prompt w in
  let asked := model_calls (Agent.final_conversation o) in
  (asked <= Z.to_nat (Agent.max_turns self))%nat
  /\ (Agent.returned o = Return Agent.TurnsExhausted ->
        asked = Z.to_nat (Agent.max_turns self))
  /\ (Agent.returned o <> Return Agent.TurnsExhausted -> (1 <= asked)%nat).
Proof.
  intros o asked.
  destruct (turns_loop_model_calls self (Z.to_nat (Agent.max_turns self))
              (Agent.seed self prompt)
              {| Tool.world := w; Tool.invocations := [] |})
    as (Hle & Hex & Hne).
  assert (Hseed : model_calls (Agent.seed self prompt) = 0%nat).
  { unfold Agent.seed. by destruct (Agent.system_message self). }
  rewrite Hseed in *. unfold asked, o, Agent.run.
  split_and!; [lia|done|intros H; specialize (Hne H); lia].
Qed.

Lemma call_rejected (tool : Tool.t) (json_arguments : string) s :
  rejected tool json_arguments ->
  Tool.call tool json_arguments s = (Return None, s).
Proof.
  intros [Hparse|[(v & Hparse & Hv)|(d & Hparse & [(name & Hin & Hout)
    |(name & Hin & Hreq & Hopt)])]].
  - by apply call_not_parsed.
  - by eapply call_not_object.
  - by eapply call_missing_required.
  - by eapply call_unknown_name.
Qed.

(** A call whose payload the tool rejects is still answered: the loop
    appends a tool message with the JSON text of [None] under the call's id,
    invokes nothing, and goes on with the next call. *)
Theorem rejected_call_is_answered_with_null self
    (tool_call : ToolCall) (tool : Tool.t) (rest : list ToolCall)
    conversation s :
  Agent.find_tool self tool_call = Some tool ->
  Tool.is_FinishTool tool = false ->
  rejected tool (tc_function_arguments tool_call) ->
  Agent.tool_calls_loop self (tool_call :: rest) conversation s
  = Agent.tool_calls_loop self rest
      (conversation ++
         [Dict Rtool (json_dumps JNull) (Some (tc_id tool_call))]) s.
Proof.
  intros Hfind Hfin Hrej. simpl.
  by rewrite Hfind, Hfin, (call_rejected _ _ _ Hrej).
Qed.

End more_turns.

(** ** [BashTool] behind [Tool.call] *)

Section more_bash.
Context {lib : PyLib} {rt : Runtime}.
Implicit Types (self : BashTool.t) (s : Tool.Env).

Lemma run_command_returns (sb : DockerSandbox) command timeout_seconds w :
  exists p w', run_command sb command timeout_seconds w = (Return p, w').
Proof.
  unfold run_command, bind, spawn.
  destruct (create_subprocess_exec _ w) as [h w1].
  destruct (wait_for_communicate _ timeout_seconds w1) as [[[out err]|] w2];
    eauto.
Qed.

Lemma bash_call_not_none self (arguments : kwargs) w :
  (BashTool._call self arguments w).1 <> Return None.
Proof.
  unfold BashTool._call.
  destruct arguments as [|[name value] [|]]; try done.
  case_bool_decide; [|done].
  destruct value; try done.
  unfold BashTool._call_command, bind.
  destruct (run_command_returns (BashTool.sandbox self) s
              default_timeout_seconds w) as (p & w' & ->). done.
Qed.

Lemma not_subseteq_witness (l k : list string) :
  ~ l ⊆ k -> exists x, x ∈ l /\ x ∉ k.
Proof.
  induction l as [|x l IH]; intros Hnot.
  - destruct Hnot. intros x Hx. by apply not_elem_of_nil in Hx.
  - destruct (decide (x ∈ k)) as [Hin|Hout].
    + destruct IH as (y & Hy & Hyk).
      { intros Hsub. apply Hnot. intros y [->|Hy]%elem_of_cons; auto. }
      exists y. split; [by right|done].
    + exists x. split; [by left|done].
Qed.

(** For a Bash tool, [None] from [Tool.call] has one meaning: the payload
    was rejected and no command was run.  Whenever the payload is passed on,
    the result is a JSON text or an exception. *)
Theorem bash_none_means_rejected self (json_arguments : string) s s' :
  Tool.call (BashTool.as_tool self) json_arguments s = (Return None, s') ->
  rejected (BashTool.as_tool self) json_arguments /\ s' = s.
Proof.
  unfold Tool.call, rejected.
  destruct (json_loads json_arguments) as [v|] eqn:Hloads;
    [|intros [= <-]; auto].
  destruct v as [| | | | | |d];
    try (intros [= <-]; split; [|done]; right; left;
         eexists; split; [done|]; intros d; discriminate).
  case_bool_decide as Hreq; cbn [negb].
  2:{ intros [= <-]. split; [|done]. right; right. exists d. split; [done|].
      left. destruct (not_subseteq_witness _ _ Hreq) as (x & ? & ?). eauto. }
  case_bool_decide as Hnames; cbn [negb].
  2:{ intros [= <-]. split; [|done]. right; right. exists d. split; [done|].
      right. destruct (not_subseteq_witness _ _ Hnames) as (x & Hx & Hout).
      exists x. split; [done|].
      split; intros Hin; apply Hout, elem_of_app; auto. }
  unfold Tool.invoke. simpl.
  pose proof (bash_call_not_none self d (Tool.world s)) as Hnot.
  destruct (BashTool._call self d (Tool.world s)) as [r w']. simpl in Hnot.
  intros [= -> _]. done.
Qed.

(** A payload whose ["command"] is not a string passes the checks of
    [Tool.call] and is stopped by [beartype] at [_call]: [Tool.call] raises
    instead of returning, and no command is run. *)
Theorem bash_non_string_command_raises self (json_arguments : string)
    (value : json) s :
  json_loads json_arguments = Some (JDict [("command"%string, value)]) ->
  (forall command, value <> JStr command) ->
  Tool.call (BashTool.as_tool self) json_arguments s
  = (Raise BeartypeCallHintParamViolation,
     {| Tool.world := Tool.world s;
        Tool.invocations := Tool.invocations s ++
          [{| inv_tool := "run_bash_command";
              inv_kwargs := [("command"%string, value)] |}] |}).
Proof.
  intros Hloads Hvalue.
  rewrite (call_accepted _ _ [("command"%string, value)]).
  - unfold Tool.invoke. simpl.
    destruct value; try done. by destruct (Hvalue s0).
  - split_and!; [done|by intros name Hname|by intros name Hname; left].
Qed.


End more_bash.

(** ** What [_truncate] keeps *)

(** Within the bound a text comes back as it is.  Past a bound of at least
    1, exactly [max_output_length] characters are kept: the first
    [max_output_length // 2] and the last remaining ones, around the
    marker, so the result is [max_output_length + 11] characters long. *)
Theorem truncate_keeps_both_ends (self : BashTool.t) (text : string) :
  1 <= BashTool.max_output_length self ->
  (Py.len text <= BashTool.max_output_length self ->
     BashTool._truncate self text = text)
  /\ (BashTool.max_output_length self < Py.len text ->
        exists head dropped tail,
          text = head +:+ dropped +:+ tail
          /\ BashTool._truncate self text
             = head +:+ BashTool.TRUNCATED +:+ tail
          /\ Py.len head = BashTool.max_output_length self / 2
          /\ Py.len head + Py.len tail = BashTool.max_output_length self
          /\ Py.len (BashTool._truncate self text)
             = BashTool.max_output_length self + 11).
Proof.
  intros Hm. set (m := BashTool.max_output_length self) in *. split.
  - intros Hshort. unfold BashTool._truncate. fold m.
    by destruct (Z.leb_spec (Py.len text) m) as [_|?]; [|lia].
  - intros Hlong. unfold BashTool._truncate. fold m.
    destruct (Z.leb_spec (Py.len text) m) as [?|_]; [lia|].
    assert (Hneg : (- m) / 2 < 0) by (apply Z.div_lt_upper_bound; lia).
    assert (Hpos : 0 <= m / 2) by (apply Z.div_pos; lia).
    assert (Hsum : m / 2 + - ((- m) / 2) = m).
    { pose proof (Z.div_mod m 2 ltac:(lia)).
      pose proof (Z.div_mod (- m) 2 ltac:(lia)).
      pose proof (Z.mod_pos_bound m 2 ltac:(lia)).
      pose proof (Z.mod_pos_bound (- m) 2 ltac:(lia)). lia. }
    unfold Py.slice_to, Py.slice_from, Py.slice_index.
    destruct (Z.ltb_spec (m / 2) 0) as [?|_]; [lia|].
    destruct (Z.ltb_spec ((- m) / 2) 0) as [_|?]; [|lia].
    pose proof (len_chars text) as Hcs.
    set (cs := Py.chars text) in *.
    set (a := Z.to_nat (Z.min (m / 2) (Py.len text))).
    set (b := Z.to_nat (Z.max 0 (Py.len text + (- m) / 2))).
    assert (Hab : (a <= b)%nat) by lia.
    exists (Py.of_chars (take a cs)),
           (Py.of_chars (take (b - a) (drop a cs))),
           (Py.of_chars (drop b cs)).
    split_and!.
    + rewrite <- !of_chars_app.
      replace (drop b cs) with (drop (b - a) (drop a cs))
        by (rewrite drop_drop; f_equal; lia).
      rewrite (take_drop (b - a)), take_drop. unfold cs.
      by rewrite of_chars_chars.
    + done.
    + rewrite len_of_chars, length_take. lia.
    + rewrite !len_of_chars, length_take, length_drop. lia.
    + rewrite !len_app, !len_of_chars, length_take, length_drop, len_TRUNCATED.
      lia.
Qed.

(** ** More on [DockerSandbox] *)

Section more_sandbox.
Context {lib : PyLib} {rt : Runtime}.

Lemma count_loop_index_bound existing fuel i name :
  count_loop existing fuel i = Some name ->
  exists k, (i <= k < i + fuel)%nat /\ name = candidate_name k.
Proof.
  revert i. induction fuel as [|fuel IH]; intros i; simpl; [done|].
  case_bool_decide as Hin.
  - intros (k & Hk & ->)%IH. exists k. split; [lia|done].
  - intros [= <-]. exists i. split; [lia|done].
Qed.

(** The index in the name handed out is at most the number of lines of the
    listing: with [n] containers listed, the name is one of
    [bash-sandbox-instance-0] to [bash-sandbox-instance-n], whatever the
    listed names are. *)
Theorem reserved_index_at_most_listing_length
    (w w' w'' : World) (p : CompletedProcess) (name : string) :
  run_to_completion docker_ps w = (Return p, w') ->
  make_unique_container_name w = (Return name, w'') ->
  exists i, name = candidate_name i
            /\ (i <= length (splitlines (stdout p)))%nat.
Proof.
  intros Hrun. rewrite (make_unique_container_name_unfold _ _ _ Hrun).
  case_bool_decide; [done|].
  destruct (count_loop _ _ _) as [name'|] eqn:Hloop; [|done].
  intros [= -> _].
  destruct (count_loop_index_bound _ _ _ _ Hloop) as (k & Hk & ->).
  exists k. split; [done|lia].
Qed.

Lemma aenter_no_directory (self : DockerSandbox) (w w1 : World) (name : string) :
  make_unique_container_name w = (Return name, w1) ->
  is_dir sandbox_path w1 = false ->
  __aenter__ self w
  = (Raise (FileNotFoundError "Sandbox directory 'sandbox' not found."), w1).
Proof.
  intros Hname Hdir. unfold __aenter__, bind at 1. rewrite Hname.
  unfold bind at 1, build_image. by rewrite Hdir.
Qed.

(** Without the build directory, [__aenter__] raises [FileNotFoundError]
    once the name is reserved: the listing is the only command issued, no
    image is built and no container is started. *)
Theorem aenter_without_sandbox_directory
    (self : DockerSandbox) (w w1 : World) (name : string) :
  make_unique_container_name w = (Return name, w1) ->
  is_dir sandbox_path w1 = false ->
  __aenter__ self w
  = (Raise (FileNotFoundError "Sandbox directory 'sandbox' not found."), w1).
Proof. apply aenter_no_directory. Qed.

Lemma lock_consistent_initial n w : lock_consistent (initial n w).
Proof.
  split; simpl.
  - done.
  - intros i t _ [-> _]%lookup_replicate [?|[?|?]]; done.
  - intros i j ti tj [-> _]%lookup_replicate _ [?|[?|?]]; done.
Qed.

(** One task moves: what keeps the lock consistent. *)
Lemma holding_dec (t : task) : holding t \/ ~ holding t.
Proof.
  unfold holding, named. destruct (at_point t); intuition discriminate.
Qed.

Lemma lock_consistent_move s i t l p sb w' :
  let t' := {| at_point := p; sandbox_of := sb |} in
  lock_consistent s -> tasks s !! i = Some t ->
  (holding t' -> l = true /\ (holding t \/ locked s = false)) ->
  (~ holding t' -> (holding t -> l = false) /\ (~ holding t -> l = locked s)) ->
  lock_consistent (move s i l w' p sb).
Proof.
  intros t' Hlock Hi Hin Hout.
  assert (Hlookup : forall j tj,
    tasks (move s i l w' p sb) !! j = Some tj ->
    (j = i /\ tj = t') \/ (j <> i /\ tasks s !! j = Some tj)).
  { simpl. intros j tj [(-> & <- & _)|[? ?]]%list_lookup_insert_Some; auto. }
  assert (Hi' : tasks (move s i l w' p sb) !! i = Some t').
  { simpl. apply list_lookup_insert_eq. by eapply lookup_lt_Some. }
  assert (Hothers : forall j tj, j <> i -> tasks s !! j = Some tj ->
            tasks (move s i l w' p sb) !! j = Some tj).
  { intros j tj Hne Hj. simpl. by rewrite list_lookup_insert_ne. }
  split; simpl locked.
  - intros ->. destruct (holding_dec t') as [Hh|Hn]; [by exists i, t'|].
    destruct (Hout Hn) as [Hrel Hsame].
    destruct (holding_dec t) as [Hht|Hnt]; [by specialize (Hrel Hht)|].
    destruct (lock_taken _ Hlock (eq_sym (Hsame Hnt))) as (j & tj & Hj & Hhj).
    destruct (decide (j = i)) as [->|Hne]; [congruence|].
    exists j, tj. auto.
  - intros j tj -> [[-> ->]|[Hne Hj]]%Hlookup Hh.
    + by destruct (Hin Hh).
    + destruct (holding_dec t') as [Hh'|Hn]; [by destruct (Hin Hh')|].
      destruct (Hout Hn) as [Hrel Hsame].
      destruct (holding_dec t) as [Hht|Hnt].
      * destruct Hne. by eapply (lock_exclusive _ Hlock j i).
      * eapply (lock_free _ Hlock j tj); [|done..]. by rewrite <- (Hsame Hnt).
  - intros j1 j2 t1 t2 [[-> ->]|[Hne1 Hj1]]%Hlookup
      [[-> ->]|[Hne2 Hj2]]%Hlookup Hh1 Hh2; [done| | |].
    + destruct (Hin Hh1) as [_ [Hht|Hfree]].
      * destruct Hne2. by eapply (lock_exclusive _ Hlock j2 i).
      * by destruct (lock_free _ Hlock j2 t2).
    + destruct (Hin Hh2) as [_ [Hht|Hfree]].
      * destruct Hne1. by eapply (lock_exclusive _ Hlock j1 i).
      * by destruct (lock_free _ Hlock j1 t1).
    + by eapply (lock_exclusive _ Hlock j1 j2).
Qed.

Ltac lock_points :=
  unfold holding, named in *; simpl in *;
  intuition (try congruence; try discriminate).

Lemma lock_consistent_step s s' :
  step s s' -> lock_consistent s -> lock_consistent s'.
Proof.
  intros Hstep Hlock.
  destruct Hstep as
    [s i t Hi Hat Hfree
    |s i t name w' Hi Hat Hrun
    |s i t e w' Hi Hat Hrun
    |s i t w' Hi Hat Hrun
    |s i t e w' Hi Hat Hrun
    |s i t w' Hi Hat Hrun
    |s i t e w' Hi Hat Hrun
    |s i t command timeout_seconds r w' Hi Hat Hrun
    |s i t model conversation descriptions r w' Hi Hat Hrun
    |s i t r w' Hi Hat Hrun
    |s i t r w' Hi Hat Hrun];
    apply (lock_consistent_move s i t); try done; lock_points.
Qed.

(** Whatever the commands return and however the tasks interleave, at most
    one task is inside [async with _container_creation_lock], and the lock
    is taken exactly while one is: every way out of [__aenter__], the
    exceptions included, gives the lock back. *)
Theorem lock_is_exclusive_and_released (n : nat) (w0 : World) (s : system) :
  rtc step (initial n w0) s -> lock_consistent s.
Proof.
  intros Hreach.
  refine (rtc_ind_r (R := step) lock_consistent (initial n w0)
            (lock_consistent_initial n w0) _ s Hreach).
  intros s1 s2 _ Hstep Hlock. by eapply lock_consistent_step.
Qed.

End more_sandbox.

(** ** More on the fan-out *)

Section more_fanout.
Import Evaluate.

Lemma fan_step_length f f' : fan_step f f' -> length (jobs f') = length (jobs f).
Proof. intros [f0 i Hi Hpos|f0 i Hi]; simpl; by rewrite length_insert. Qed.

(** No permit of the semaphore is lost or made up: at every moment the
    permits left and the orchestrators running add up to
    [max_run_in_parallel], the permits left are never negative, and the
    number of coroutines stays the number of tasks. *)
Theorem fanout_permits_conserved
    (n : nat) (kw : keywords) (f0 f : fanout) :
  evaluate_agent_multiple_tasks n kw = Return f0 ->
  rtc fan_step f0 f ->
  value f + evaluating f
  = default default_max_run_in_parallel (max_run_in_parallel kw)
  /\ 0 <= value f
  /\ 0 <= evaluating f
  /\ length (jobs f) = n.
Proof.
  unfold evaluate_agent_multiple_tasks, Semaphore.
  set (cap := default _ _).
  destruct (Z.ltb_spec cap 0) as [?|Hcap]; [done|].
  intros [= <-] Hreach.
  destruct (fan_reachable_permits _ _ Hreach) as [Hsum Hpos]; [done|].
  unfold evaluating at 2 in Hsum. simpl in Hsum.
  rewrite evaluating_replicate_Queued in Hsum. simpl in Hsum.
  split_and!; [lia|done|unfold evaluating; lia|].
  refine (rtc_ind_r (R := fan_step) (fun f => length (jobs f) = n) _ _ _ f Hreach).
  - simpl. by rewrite length_replicate.
  - intros f1 f2 _ Hstep Hlen. by rewrite (fan_step_length _ _ Hstep).
Qed.

(** With [max_run_in_parallel=0] the semaphore is created without error and
    never lets anyone in: no evaluation starts, every coroutine stays in
    front of [async with semaphore]. *)
Theorem fanout_cap_zero_starts_nothing
    (n : nat) (kw : keywords) (f0 f : fanout) :
  max_run_in_parallel kw = Some 0 ->
  evaluate_agent_multiple_tasks n kw = Return f0 ->
  rtc fan_step f0 f ->
  f = {| value := 0; jobs := replicate n Queued |}.
Proof.
  intros Hzero. unfold evaluate_agent_multiple_tasks, Semaphore.
  rewrite Hzero. simpl. intros [= <-] Hreach.
  refine (rtc_ind_r (R := fan_step)
            (fun f => f = {| value := 0; jobs := replicate n Queued |})
            _ eq_refl _ f Hreach).
  intros f1 f2 _ Hstep ->.
  inversion Hstep as [f' i Hi Hpos|f' i Hi]; subst; simpl in *.
  - lia.
  - by apply lookup_replicate in Hi as [? _].
Qed.

End more_fanout.

(** ** The dictionary of results and the table *)

Section more_dict.
Context {K V : Type} `{EqDecision K}.
Implicit Types (d : list (K * V)) (k : K) (v : V).

Lemma dict_get_set_eq k v d : PyDict.get k (PyDict.set k v d) = Some v.
Proof.
  induction d as [|[k' v'] d IH]; simpl.
  - by rewrite decide_True.
  - destruct (decide (k' = k)) as [->|Hne]; simpl.
    + by rewrite decide_True.
    + by rewrite decide_False.
Qed.

Lemma dict_get_set_ne k k' v d :
  k <> k' -> PyDict.get k' (PyDict.set k v d) = PyDict.get k' d.
Proof.
  intros Hne. induction d as [|[k0 v0] d IH]; simpl.
  - by rewrite decide_False.
  - destruct (decide (k0 = k)) as [->|Hne0]; simpl.
    + by rewrite !decide_False.
    + destruct (decide (k0 = k')); done.
Qed.

Lemma dict_set_fresh k v d : k ∉ d.*1 -> PyDict.set k v d = d ++ [(k, v)].
Proof.
  induction d as [|[k' v'] d IH]; csimpl; [done|].
  intros [Hne Hout]%not_elem_of_cons.
  rewrite decide_False by done. by rewrite IH.
Qed.

Lemma dict_set_keys k v d :
  (PyDict.set k v d).*1 = if decide (k ∈ d.*1) then d.*1 else d.*1 ++ [k].
Proof.
  induction d as [|[k' v'] d IH]; csimpl; [done|].
  destruct (decide (k' = k)) as [->|Hne]; csimpl.
  - rewrite decide_True; [done|by left].
  - rewrite IH. destruct (decide (k ∈ d.*1)) as [Hin|Hout].
    + rewrite decide_True; [done|by right].
    + rewrite decide_False; [done|].
      intros [->|?]%elem_of_cons; done.
Qed.

Lemma of_pairs_snoc (pairs : list (K * V)) k v :
  PyDict.of_pairs (pairs ++ [(k, v)]) = PyDict.set k v (PyDict.of_pairs pairs).
Proof. unfold PyDict.of_pairs. by rewrite foldl_app. Qed.

Lemma of_pairs_keys_NoDup (pairs : list (K * V)) :
  NoDup (PyDict.of_pairs pairs).*1.
Proof.
  induction pairs as [|[k v] pairs IH] using rev_ind; [constructor|].
  rewrite of_pairs_snoc, dict_set_keys.
  destruct (decide (k ∈ _)); [done|].
  apply NoDup_app. split_and!; [done| |apply NoDup_singleton].
  intros x Hx ->%list_elem_of_singleton. done.
Qed.

Lemma of_pairs_get (pairs : list (K * V)) k :
  PyDict.get k (PyDict.of_pairs pairs)
  = snd <$> last (filter (fun kv : K * V => kv.1 = k) pairs).
Proof.
  induction pairs as [|[k' v] pairs IH] using rev_ind; [done|].
  rewrite of_pairs_snoc, filter_app, filter_cons, filter_nil. simpl.
  destruct (decide (k' = k)) as [->|Hne].
  - by rewrite dict_get_set_eq, last_snoc.
  - by rewrite dict_get_set_ne, app_nil_r.
Qed.

Lemma of_pairs_keys_subset (pairs : list (K * V)) k :
  k ∈ (PyDict.of_pairs pairs).*1 <-> k ∈ pairs.*1.
Proof.
  induction pairs as [|[k' v] pairs IH] using rev_ind; [done|].
  rewrite of_pairs_snoc, dict_set_keys, fmap_app, elem_of_app. simpl.
  rewrite list_elem_of_singleton, <- IH.
  destruct (decide (k' ∈ _)) as [Hin|Hout].
  - split; [auto|]. intros [?| ->]; done.
  - by rewrite elem_of_app, list_elem_of_singleton.
Qed.

Lemma of_pairs_NoDup (pairs : list (K * V)) :
  NoDup pairs.*1 -> PyDict.of_pairs pairs = pairs.
Proof.
  induction pairs as [|[k v] pairs IH] using rev_ind; [done|].
  rewrite fmap_app. intros (Hnodup & Hdisj & _)%NoDup_app.
  rewrite of_pairs_snoc, (IH Hnodup). apply dict_set_fresh.
  intros Hin. apply (Hdisj k Hin). by left.
Qed.

End more_dict.

Section more_results.
Import Evaluate.
Implicit Types (tasks : list Task) (results : list EvaluationResult)
  (d : list (Task * EvaluationResult)).

Lemma zip_keys_subset tasks results (task : Task) :
  task ∈ (zip tasks results).*1 -> task ∈ tasks.
Proof.
  revert results. induction tasks as [|t tasks IH]; intros [|r results]; csimpl;
    try (intros Hin; by apply not_elem_of_nil in Hin).
  intros [->|Hin]%elem_of_cons; [by left|]. right. by eapply IH.
Qed.

Lemma zip_keys_NoDup tasks results :
  NoDup tasks -> NoDup (zip tasks results).*1.
Proof.
  intros Hnodup. revert results.
  induction Hnodup as [|t tasks Hout _ IH]; intros [|r results]; csimpl;
    try constructor.
  - intros Hin%zip_keys_subset. done.
  - apply IH.
Qed.

Lemma get_zip_lookup tasks results i (task : Task) (result : EvaluationResult) :
  NoDup tasks -> tasks !! i = Some task -> results !! i = Some result ->
  PyDict.get task (zip tasks results) = Some result.
Proof.
  intros Hnodup. revert i results.
  induction Hnodup as [|t tasks Hout _ IH]; intros [|i] [|r results] Hi Hr;
    simplify_eq/=.
  - by rewrite decide_True.
  - rewrite decide_False; [by eapply IH|].
    intros ->. apply Hout. by eapply list_elem_of_lookup_2.
Qed.

(** The dictionary [evaluate_agent_multiple_tasks] returns has each task
    once, however often it was submitted, and a task submitted several
    times keeps the result of its last evaluation only. *)
Theorem results_dict_keeps_last_result tasks results :
  NoDup (results_dict tasks results).*1
  /\ (forall task, task ∈ (results_dict tasks results).*1
        <-> task ∈ (zip tasks results).*1)
  /\ forall task,
       PyDict.get task (results_dict tasks results)
       = snd <$> last (filter (fun item : Task * EvaluationResult => item.1 = task)
                         (zip tasks results)).
Proof.
  unfold results_dict. split_and!.
  - apply of_pairs_keys_NoDup.
  - intros task. apply of_pairs_keys_subset.
  - intros task. apply of_pairs_get.
Qed.

Lemma results_dict_distinct tasks results :
  NoDup tasks -> results_dict tasks results = zip tasks results.
Proof. intros Hnodup. unfold results_dict. by apply of_pairs_NoDup, zip_keys_NoDup. Qed.

(** When the tasks submitted are pairwise different and [gather] gave one
    result per task, the dictionary pairs every task with its own result, in
    the order of submission, and has as many entries as there are tasks. *)
Theorem results_dict_of_distinct_tasks tasks results :
  NoDup tasks ->
  length results = length tasks ->
  results_dict tasks results = zip tasks results
  /\ length (results_dict tasks results) = length tasks
  /\ forall i task result,
       tasks !! i = Some task -> results !! i = Some result ->
       PyDict.get task (results_dict tasks results) = Some result.
Proof.
  intros Hnodup Hlen. rewrite (results_dict_distinct _ _ Hnodup).
  split_and!; [done|rewrite length_zip; lia|].
  intros i task result Hi Hr. by eapply get_zip_lookup.
Qed.

Lemma count_buckets_sum d (task_category : string) :
  (count_bucket d task_category false false
   + count_bucket d task_category false true
   + count_bucket d task_category true false
   + count_bucket d task_category true true)%nat
  = entries_in d task_category.
Proof.
  unfold count_bucket, entries_in.
  induction d as [|[task [pub priv]] d IH]; simpl; [done|].
  case_bool_decide; simpl; [|done].
  destruct pub, priv; simpl; lia.
Qed.

Lemma entries_in_cons d (item : Task * EvaluationResult) (c : string) :
  entries_in (item :: d) c
  = ((if bool_decide (category item.1 = c) then 1 else 0) + entries_in d c)%nat.
Proof. unfold entries_in. simpl. by case_bool_decide. Qed.

Lemma sum_indicator (cs : list string) (a : string) :
  NoDup cs ->
  sum_list ((fun c => if bool_decide (a = c) then 1%nat else 0%nat) <$> cs)
  = if bool_decide (a ∈ cs) then 1%nat else 0%nat.
Proof.
  induction 1 as [|c cs Hout _ IH]; csimpl; [done|].
  rewrite IH. destruct (decide (a = c)) as [<-|Hac].
  - rewrite bool_decide_true by done.
    rewrite (bool_decide_false (a ∈ cs)) by done.
    rewrite bool_decide_true; [done|by left].
  - rewrite bool_decide_false by done.
    destruct (decide (a ∈ cs)) as [Hin|Hnin].
    + rewrite !bool_decide_true; [done|by right|done].
    + rewrite !bool_decide_false; [done| |done].
      intros [?|?]%elem_of_cons; done.
Qed.

Lemma entries_partition d (cs : list string) :
  NoDup cs ->
  (forall item, item ∈ d -> category item.1 ∈ cs) ->
  sum_list (entries_in d <$> cs) = length d.
Proof.
  intros Hnodup. induction d as [|item d IH]; intros Hall.
  - clear. induction cs as [|c cs IHcs]; csimpl; [done|].
    by rewrite IHcs.
  - assert (Hsplit : sum_list (entries_in (item :: d) <$> cs)
      = (sum_list ((fun c => if bool_decide (category item.1 = c)
                             then 1%nat else 0%nat) <$> cs)
         + sum_list (entries_in d <$> cs))%nat).
    { clear. induction cs as [|c cs IHcs]; csimpl; [done|].
      rewrite IHcs, entries_in_cons. lia. }
    rewrite Hsplit, (sum_indicator _ _ Hnodup), IH.
    + rewrite bool_decide_true; [done|]. apply Hall. by left.
    + intros it Hit. apply Hall. by right.
Qed.

Lemma table_total d : sum_list (sum_list <$> (table d).*2) = length d.
Proof.
  rewrite <- (entries_partition d (task_categories d)).
  - unfold table. rewrite <- !list_fmap_compose. f_equal.
    apply list_fmap_ext. intros i c _. simpl.
    rewrite <- count_buckets_sum. lia.
  - apply NoDup_remove_dups.
  - intros item Hitem. unfold task_categories.
    apply elem_of_remove_dups, list_elem_of_fmap. eauto.
Qed.

(** The table has one row per category that occurs, and no other row.  The
    four counts of a row are, in the order of the headers, the entries of
    the category whose tests both failed, whose public tests alone passed,
    whose private tests alone passed and whose tests both passed; they add
    up to the entries of the category, and all rows together to the entries
    of the dictionary. *)
Theorem table_counts_every_entry_once d :
  NoDup (table d).*1
  /\ (forall c, c ∈ (table d).*1 <-> exists item, item ∈ d /\ category item.1 = c)
  /\ (forall c counts, (c, counts) ∈ table d ->
        counts = [count_bucket d c false false; count_bucket d c false true;
                  count_bucket d c true false; count_bucket d c true true]
        /\ sum_list counts = entries_in d c)
  /\ sum_list (sum_list <$> (table d).*2) = length d.
Proof.
  assert (Hlabels : (table d).*1 = task_categories d).
  { unfold table. rewrite <- list_fmap_compose. apply list_fmap_id. }
  assert (Hrow : forall c counts, (c, counts) ∈ table d ->
            counts = [count_bucket d c false false; count_bucket d c false true;
                      count_bucket d c true false; count_bucket d c true true]).
  { intros c counts (c' & [= -> ->] & _)%list_elem_of_fmap. done. }
  split_and!.
  - rewrite Hlabels. apply NoDup_remove_dups.
  - intros c. rewrite Hlabels. unfold task_categories.
    rewrite elem_of_remove_dups, list_elem_of_fmap.
    split; [intros (item & -> & Hin)|intros (item & Hin & <-)]; eauto.
  - intros c counts Hin. split; [by apply Hrow|].
    rewrite (Hrow _ _ Hin). simpl. rewrite <- count_buckets_sum. lia.
  - apply table_total.
Qed.

(** For pairwise different tasks with one result each, the counts of the
    table add up to the number of tasks submitted. *)
Theorem table_total_is_number_of_tasks tasks results :
  NoDup tasks ->
  length results = length tasks ->
  sum_list (sum_list <$> (table (results_dict tasks results)).*2) = length tasks.
Proof.
  intros Hnodup Hlen.
  rewrite table_total, (results_dict_distinct _ _ Hnodup), length_zip. lia.
Qed.

End more_results.

(** ** [evaluate_agent] *)

Section more_evaluate.
Context {lib : PyLib} {rt : Runtime}.
Import Evaluate.

Lemma run_command_times_out (sb : DockerSandbox) command timeout_seconds w p w' :
  (forall proc t w0,
     proc_args proc = docker_exec (container_name sb) command ->
     (wait_for_communicate proc t w0).1 = None) ->
  run_command sb command timeout_seconds w = (Return p, w') ->
  returncode p = 1.
Proof.
  intros Hslow. unfold run_command, bind, spawn.
  destruct (create_subprocess_exec _ w) as [h w1].
  specialize (Hslow {| pid := h;
                       proc_args := docker_exec (container_name sb) command |}
                    timeout_seconds w1 eq_refl).
  destruct (wait_for_communicate _ timeout_seconds w1) as [[[out err]|] w2];
    [done|]. by intros [= <- _].
Qed.

Lemma run_tests_Return (sb : DockerSandbox) (task : Task) w r w' :
  run_tests sb task w = (Return r, w') ->
  exists p1 w1 p2 w2 p3 w3 p4,
    run_command sb (write_public_tests task) default_timeout_seconds w
    = (Return p1, w1)
    /\ run_command sb "pytest public_tests.py" default_timeout_seconds w1
       = (Return p2, w2)
    /\ run_command sb (write_private_tests task) default_timeout_seconds w2
       = (Return p3, w3)
    /\ run_command sb "pytest private_tests.py" default_timeout_seconds w3
       = (Return p4, w')
    /\ r = {| public_tests_passed := bool_decide (returncode p2 = 0);
              private_tests_passed := bool_decide (returncode p4 = 0) |}.
Proof.
  unfold run_tests.
  destruct (run_command_returns sb (write_public_tests task)
              default_timeout_seconds w) as (p1 & w1 & H1).
  destruct (run_command_returns sb "pytest public_tests.py"
              default_timeout_seconds w1) as (p2 & w2 & H2).
  destruct (run_command_returns sb (write_private_tests task)
              default_timeout_seconds w2) as (p3 & w3 & H3).
  destruct (run_command_returns sb "pytest private_tests.py"
              default_timeout_seconds w3) as (p4 & w4 & H4).
  unfold bind at 1. rewrite H1. unfold bind at 1. rewrite H2.
  unfold bind at 1. rewrite H3. unfold bind at 1. rewrite H4.
  unfold ret. intros [= <- <-].
  by exists p1, w1, p2, w2, p3, w3, p4.
Qed.

(** A test run that outlasts the 30 seconds [run_command] allows by default
    counts as failed: if [pytest public_tests.py] times out in the sandbox,
    a result that [evaluate_agent] returns has [public_tests_passed] false,
    and likewise for the private tests. *)
Theorem evaluate_agent_timeout_is_failure
    (task : Task) (model_name : string) (turns : Z)
    (w w1 w' : World) (sb : DockerSandbox) (r : EvaluationResult) :
  __aenter__ new_sandbox w = (Return sb, w1) ->
  evaluate_agent task model_name turns w = (Return r, w') ->
  ((forall proc t w0,
      proc_args proc = docker_exec (container_name sb) "pytest public_tests.py" ->
      (wait_for_communicate proc t w0).1 = None) ->
   public_tests_passed r = false)
  /\ ((forall proc t w0,
         proc_args proc = docker_exec (container_name sb) "pytest private_tests.py" ->
         (wait_for_communicate proc t w0).1 = None) ->
      private_tests_passed r = false).
Proof.
  intros Henter. unfold evaluate_agent. rewrite Henter.
  destruct (evaluate_in sb task model_name turns w1) as [r' w2] eqn:Hin.
  intros [= -> _]. unfold evaluate_in in Hin.
  destruct (Agent.returned _) as [ending|e]; [|done].
  destruct (run_tests_Return _ _ _ _ _ Hin)
    as (p1 & v1 & p2 & v2 & p3 & v3 & p4 & H1 & H2 & H3 & H4 & ->).
  split; intros Hslow; simpl.
  - by rewrite (run_command_times_out _ _ _ _ _ _ Hslow H2).
  - by rewrite (run_command_times_out _ _ _ _ _ _ Hslow H4).
Qed.

(** An exception out of [Agent.run] ends the evaluation of the task: no
    test is written or run, the sandbox is stopped and removed all the
    same, and [evaluate_agent] raises that exception. *)
Theorem evaluate_agent_agent_failure_skips_tests
    (task : Task) (model_name : string) (turns : Z)
    (w w1 : World) (sb : DockerSandbox) (e : exn) :
  __aenter__ new_sandbox w = (Return sb, w1) ->
  let o := Agent.run (agent_for sb model_name turns) (description task) w1 in
  Agent.returned o = Raise e ->
  evaluate_agent task model_name turns w
  = (Raise e, (cleanup sb (Tool.world (Agent.final_env o))).2).
Proof.
  intros Henter o Hraise. unfold evaluate_agent. rewrite Henter.
  unfold evaluate_in. fold o. by rewrite Hraise.
Qed.

(** Without the build directory, [evaluate_agent] raises
    [FileNotFoundError] with the listing as the only command issued: the
    model service is not asked, no test runs and, [__aenter__] having
    raised, [cleanup] is not called. *)
Theorem evaluate_agent_without_sandbox_directory
    (task : Task) (model_name : string) (turns : Z)
    (w w1 : World) (name : string) :
  make_unique_container_name w = (Return name, w1) ->
  is_dir sandbox_path w1 = false ->
  evaluate_agent task model_name turns w
  = (Raise (FileNotFoundError "Sandbox directory 'sandbox' not found."), w1).
Proof.
  intros Hname Hdir. unfold evaluate_agent.
  by rewrite (aenter_no_directory new_sandbox _ _ _ Hname Hdir).
Qed.

End more_evaluate.

(** ** Instances of the further properties in the simulated world *)

Lemma finish_call_ends_the_turn_witness :
  Agent.tool_calls_loop (lib := Sim.lib)
    (Agent.new "gpt-4o-mini" [sim_bash_tool Sim.chatty] 15 None)
    [{| tc_id := "call_1"; tc_function_name := "finish";
        tc_function_arguments := "{}" |};
     {| tc_id := "call_2"; tc_function_name := "run_bash_command";
        tc_function_arguments := Sim.echo_payload |}]
    [] (sim_env Sim.chatty)
  = {| Agent.returned := Return true;
       Agent.final_conversation := [];
       Agent.final_env := sim_env Sim.chatty |}.
Proof.
  apply (finish_call_ends_the_turn (lib := Sim.lib)); [reflexivity|].
  intros tool Hin. apply list_elem_of_singleton in Hin as ->.
  split; [reflexivity|discriminate].
Defined.

Lemma rejected_call_is_answered_with_null_witness :
  Agent.tool_calls_loop (lib := Sim.lib) (sim_agent Sim.chatty 15 None)
    [{| tc_id := "call_1"; tc_function_name := "run_bash_command";
        tc_function_arguments := "{}" |}]
    [] (sim_env Sim.chatty)
  = {| Agent.returned := Return false;
       Agent.final_conversation := [Dict Rtool "null" (Some "call_1"%string)];
       Agent.final_env := sim_env Sim.chatty |}.
Proof.
  rewrite (rejected_call_is_answered_with_null (lib := Sim.lib)
             (sim_agent Sim.chatty 15 None) _ (sim_bash_tool Sim.chatty));
    [reflexivity..|].
  right; right. exists []. split; [reflexivity|].
  left. exists "command"%string. split.
  - vm_compute. apply list_elem_of_here.
  - apply not_elem_of_nil.
Defined.

Lemma bash_none_means_rejected_witness :
  rejected (lib := Sim.lib) (sim_bash_tool Sim.chatty) "[]"
  /\ sim_env Sim.chatty = sim_env Sim.chatty.
Proof.
  apply (bash_none_means_rejected (lib := Sim.lib) (rt := Sim.runtime Sim.chatty)
           (sim_bash 1024) "[]" (sim_env Sim.chatty) (sim_env Sim.chatty)).
  reflexivity.
Defined.

Lemma bash_non_string_command_raises_witness :
  Tool.call (lib := sim_lib_more) (rt := Sim.runtime Sim.chatty)
    (BashTool.as_tool (lib := sim_lib_more) (sim_bash 1024))
    number_payload (sim_env Sim.chatty)
  = (Raise BeartypeCallHintParamViolation,
     Tool.Build_Env (rt := Sim.runtime Sim.chatty) Sim.fresh
       [{| inv_tool := "run_bash_command";
           inv_kwargs := [("command"%string, JInt 5)] |}]).
Proof.
  apply (bash_non_string_command_raises (lib := sim_lib_more)
           (rt := Sim.runtime Sim.chatty) (sim_bash 1024) number_payload
           (JInt 5) (sim_env Sim.chatty)).
  - reflexivity.
  - discriminate.
Defined.


Lemma truncate_keeps_both_ends_witness :
  (Py.len "abcdefghij" <= 5 ->
     BashTool._truncate (sim_bash 5) "abcdefghij" = "abcdefghij"%string)
  /\ (5 < Py.len "abcdefghij" ->
        exists head dropped tail,
          "abcdefghij"%string = head +:+ dropped +:+ tail
          /\ BashTool._truncate (sim_bash 5) "abcdefghij"
             = head +:+ BashTool.TRUNCATED +:+ tail
          /\ Py.len head = 5 / 2
          /\ Py.len head + Py.len tail = 5
          /\ Py.len (BashTool._truncate (sim_bash 5) "abcdefghij") = 5 + 11).
Proof.
  apply (truncate_keeps_both_ends (sim_bash 5) "abcdefghij"). simpl. lia.
Defined.

Lemma reserved_index_at_most_listing_length_witness :
  exists i, "bash-sandbox-instance-2"%string = candidate_name i /\ (i <= 2)%nat.
Proof.
  apply (reserved_index_at_most_listing_length (lib := Sim.lib)
           (rt := Sim.runtime Sim.chatty) sim_two_known
           (run_to_completion (lib := Sim.lib) (rt := Sim.runtime Sim.chatty)
              docker_ps sim_two_known).2
           (make_unique_container_name (lib := Sim.lib)
              (rt := Sim.runtime Sim.chatty) sim_two_known).2
           {| returncode := 0;
              stdout := Sim.join_lf [candidate_name 1; candidate_name 0];
              stderr := "" |});
    reflexivity.
Defined.

Lemma aenter_without_sandbox_directory_witness :
  (__aenter__ (lib := Sim.lib) (rt := Sim.runtime Sim.chatty)
     new_sandbox sim_no_directory).1
  = Raise (FileNotFoundError "Sandbox directory 'sandbox' not found.").
Proof.
  rewrite (aenter_without_sandbox_directory (lib := Sim.lib)
             (rt := Sim.runtime Sim.chatty) new_sandbox sim_no_directory
             (make_unique_container_name (lib := Sim.lib)
                (rt := Sim.runtime Sim.chatty) sim_no_directory).2
             "bash-sandbox-instance-0"); reflexivity.
Defined.

Lemma evaluate_agent_without_sandbox_directory_witness :
  (Evaluate.evaluate_agent (lib := Sim.lib) (rt := Sim.runtime Sim.chatty)
     (sim_task "Reverse a string.") "gpt-4o-mini" 15 sim_no_directory).1
  = Raise (FileNotFoundError "Sandbox directory 'sandbox' not found.").
Proof.
  rewrite (evaluate_agent_without_sandbox_directory (lib := Sim.lib)
             (rt := Sim.runtime Sim.chatty) (sim_task "Reverse a string.")
             "gpt-4o-mini" 15 sim_no_directory
             (make_unique_container_name (lib := Sim.lib)
                (rt := Sim.runtime Sim.chatty) sim_no_directory).2
             "bash-sandbox-instance-0"); reflexivity.
Defined.

Lemma lock_is_exclusive_and_released_witness :
  lock_consistent (rt := chatty_rt) sim_both_live.
Proof.
  apply (lock_is_exclusive_and_released (lib := Sim.lib) (rt := chatty_rt)
           2 Sim.fresh sim_both_live).
  apply sim_both_live_reachable.
Defined.

Lemma fanout_permits_conserved_witness :
  let f := {| Evaluate.value := 1;
              Evaluate.jobs := [Evaluate.Evaluating; Evaluate.Queued;
                                Evaluate.Queued] |} in
  Evaluate.value f + Evaluate.evaluating f = 2
  /\ 0 <= Evaluate.value f
  /\ 0 <= Evaluate.evaluating f
  /\ length (Evaluate.jobs f) = 3%nat.
Proof.
  apply (fanout_permits_conserved 3
           {| Evaluate.model := None; Evaluate.max_turns := None;
              Evaluate.max_run_in_parallel := Some 2 |}
           {| Evaluate.value := 2;
              Evaluate.jobs := [Evaluate.Queued; Evaluate.Queued;
                                Evaluate.Queued] |}).
  - reflexivity.
  - eapply rtc_l; [|apply rtc_refl].
    apply (Evaluate.fan_enter
             {| Evaluate.value := 2;
                Evaluate.jobs := [Evaluate.Queued; Evaluate.Queued;
                                  Evaluate.Queued] |} 0%nat);
      [reflexivity|simpl; lia].
Defined.

Lemma fanout_cap_zero_starts_nothing_witness :
  {| Evaluate.value := 0; Evaluate.jobs := [Evaluate.Queued; Evaluate.Queued] |}
  = {| Evaluate.value := 0; Evaluate.jobs := replicate 2 Evaluate.Queued |}.
Proof.
  apply (fanout_cap_zero_starts_nothing 2
           {| Evaluate.model := None; Evaluate.max_turns := None;
              Evaluate.max_run_in_parallel := Some 0 |}
           {| Evaluate.value := 0;
              Evaluate.jobs := [Evaluate.Queued; Evaluate.Queued] |}).
  - reflexivity.
  - reflexivity.
  - apply rtc_refl.
Defined.

Lemma sim_tasks_distinct : NoDup [sim_task "a"; sim_task "b"].
Proof.
  apply NoDup_cons. split; [|apply NoDup_singleton].
  intros Hin%list_elem_of_singleton. discriminate Hin.
Qed.

Lemma results_dict_of_distinct_tasks_witness :
  Evaluate.results_dict [sim_task "a"; sim_task "b"] [passed_both; passed_public]
  = [(sim_task "a", passed_both); (sim_task "b", passed_public)]
  /\ length (Evaluate.results_dict [sim_task "a"; sim_task "b"]
               [passed_both; passed_public]) = 2%nat
  /\ forall i task result,
       [sim_task "a"; sim_task "b"] !! i = Some task ->
       [passed_both; passed_public] !! i = Some result ->
       PyDict.get task
         (Evaluate.results_dict [sim_task "a"; sim_task "b"]
            [passed_both; passed_public]) = Some result.
Proof.
  apply (results_dict_of_distinct_tasks [sim_task "a"; sim_task "b"]
           [passed_both; passed_public]); [apply sim_tasks_distinct|reflexivity].
Defined.

Lemma table_total_is_number_of_tasks_witness :
  sum_list (sum_list <$>
    (Evaluate.table
       (Evaluate.results_dict [sim_task "a"; sim_task "b"]
          [passed_both; passed_public])).*2) = 2%nat.
Proof.
  apply (table_total_is_number_of_tasks [sim_task "a"; sim_task "b"]
           [passed_both; passed_public]); [apply sim_tasks_distinct|reflexivity].
Defined.

Lemma evaluate_agent_timeout_is_failure_witness :
  Evaluate.public_tests_passed
    {| Evaluate.public_tests_passed := false;
       Evaluate.private_tests_passed := false |} = false
  /\ Evaluate.private_tests_passed
       {| Evaluate.public_tests_passed := false;
          Evaluate.private_tests_passed := false |} = false.
Proof.
  destruct (evaluate_agent_timeout_is_failure (lib := Sim.lib) (rt := sim_slow_rt)
              (sim_task "Reverse a string.") "gpt-4o-mini" 2 Sim.fresh
              (__aenter__ (lib := Sim.lib) (rt := sim_slow_rt)
                 new_sandbox Sim.fresh).2
              (Evaluate.evaluate_agent (lib := Sim.lib) (rt := sim_slow_rt)
                 (sim_task "Reverse a string.") "gpt-4o-mini" 2 Sim.fresh).2
              {| container_name := candidate_name 0 |}
              {| Evaluate.public_tests_passed := false;
                 Evaluate.private_tests_passed := false |})
    as [Hpublic Hprivate]; [vm_compute; reflexivity..|].
  split; [apply Hpublic|apply Hprivate]; intros proc t w0 _; reflexivity.
Defined.

Lemma evaluate_agent_agent_failure_skips_tests_witness :
  (Evaluate.evaluate_agent (lib := Sim.lib) (rt := Sim.runtime unknown_tool)
     (sim_task "Reverse a string.") "gpt-4o-mini" 15 Sim.fresh).1
  = Raise AssertionError.
Proof.
  rewrite (evaluate_agent_agent_failure_skips_tests (lib := Sim.lib)
             (rt := Sim.runtime unknown_tool)
             (sim_task "Reverse a string.") "gpt-4o-mini" 15 Sim.fresh
             (__aenter__ (lib := Sim.lib) (rt := Sim.runtime unknown_tool)
                new_sandbox Sim.fresh).2
             {| container_name := candidate_name 0 |} AssertionError);
    [reflexivity|vm_compute; reflexivity|vm_compute; reflexivity].
Defined.
